(** * udp-tcp-lite: a TCP-like handshake, data and teardown protocol over UDP

    Shallow embedding of [tcp_like_client.py] and [tcp_like_server.py]:
    the packet codec ([checksum], [pack_packet], [unpack_packet], identical
    in both files), the client's retry primitive ([send_and_wait]) and the
    server's packet handler ([TCPLikeServer._handle_packet]).

    Python integers are unbounded, hence [Z]; [bytes] values are lists of
    [Byte.byte]; a raised exception is an explicit [Raise] outcome.  The
    [print] calls of the source are not modelled.  The server starts a thread
    per packet; the model runs one handler at a time. *)

From Stdlib Require Import ZArith List Lia Bool.
From Stdlib Require Import Strings.Byte.
From stdpp Require Import gmap strings.
From Equations Require Import Equations.
Import ListNotations.
Open Scope Z_scope.

(** ** Python values and exceptions *)

Definition bytes := list byte.

(** [b[i]] for a [bytes] object is an integer in [0, 255]. *)
Definition byte_val (b : byte) : Z := Z.of_N (Byte.to_N b).

(** The byte holding the low eight bits of [z]. *)
Definition byte_of (z : Z) : byte :=
  match Byte.of_N (Z.to_N (z mod 256)) with
  | Some b => b
  | None => x00
  end.

Definition len {A : Type} (l : list A) : Z := Z.of_nat (length l).

(** [l[a:b]] for indices [0 <= a] and [0 <= b] (the only slices the source
    takes): the elements at positions [a .. min(b, len l) - 1]; out-of-range
    bounds are clipped, never an error. *)
Definition slice {A : Type} (a b : Z) (l : list A) : list A :=
  firstn (Z.to_nat (b - a)) (skipn (Z.to_nat a) l).

(** The exceptions of the modelled code: [struct.error], and [KeyError] from
    a dict access or [del] on a missing key. *)
Inductive exn : Type := StructError | KeyError.

Inductive result (A : Type) : Type :=
| Ret (a : A)
| Raise (e : exn).
Arguments Ret {A} a.
Arguments Raise {A} e.

Definition rbind {A B : Type} (m : result A) (k : A -> result B) : result B :=
  match m with
  | Ret a => k a
  | Raise e => Raise e
  end.

Notation "'let!' x ':=' m 'in' k" := (rbind m (fun x => k))
  (at level 10, x name, m at level 200, k at level 200).

(** ** The [struct] module, for the two formats the source uses

    ["!I I B H H"] and ["!H"]: network byte order, no padding, unsigned
    fields of 4, 4, 1, 2, 2 bytes.  [struct.pack] raises [struct.error] on a
    value outside the field's range, [struct.unpack] on a buffer whose length
    is not the format's size. *)

Fixpoint to_be (n : nat) (v : Z) : bytes :=
  match n with
  | O => []
  | S k => byte_of (Z.shiftr v (8 * Z.of_nat k)) :: to_be k v
  end.

Definition from_be (bs : bytes) : Z :=
  fold_left (fun acc b => acc * 256 + byte_val b) bs 0.

Definition pack_uint (n : nat) (v : Z) : result bytes :=
  if (0 <=? v) && (v <? 2 ^ (8 * Z.of_nat n)) then Ret (to_be n v)
  else Raise StructError.

Definition unpack_uint (n : nat) (bs : bytes) : result Z :=
  if Nat.eqb (length bs) n then Ret (from_be bs) else Raise StructError.

(** [HDR_SIZE = struct.calcsize("!I I B H H")] *)
Definition HDR_SIZE : Z := 13.

(** [struct.pack(HDR_FMT, seq, ack, flags, wnd, payload_len)] *)
Definition pack_hdr (seq ack flags wnd payload_len : Z) : result bytes :=
  let! b_seq := pack_uint 4 seq in
  let! b_ack := pack_uint 4 ack in
  let! b_flags := pack_uint 1 flags in
  let! b_wnd := pack_uint 2 wnd in
  let! b_len := pack_uint 2 payload_len in
  Ret (b_seq ++ b_ack ++ b_flags ++ b_wnd ++ b_len).

(** [struct.unpack(HDR_FMT, hdr)] *)
Definition unpack_hdr (hdr : bytes) : result (Z * Z * Z * Z * Z) :=
  if Nat.eqb (length hdr) 13 then
    Ret (from_be (slice 0 4 hdr), from_be (slice 4 8 hdr),
         from_be (slice 8 9 hdr), from_be (slice 9 11 hdr),
         from_be (slice 11 13 hdr))
  else Raise StructError.

Definition FLAG_SYN : Z := 0x01.
Definition FLAG_ACK : Z := 0x02.
Definition FLAG_FIN : Z := 0x04.
Definition FLAG_PSH : Z := 0x08.

(** ** The packet codec *)

(** One iteration of the loop of [checksum]: [word] is [w0 w1]. *)
Definition checksum_step (s : Z) (w0 w1 : byte) : Z :=
  let s := s + (Z.shiftl (byte_val w0) 8 + byte_val w1) in
  Z.land s 0xffff + Z.shiftr s 16.

(** [for i in range(0, len(data), 2)]: two bytes at a time, a last single
    byte padded with [b'\x00']. *)
Fixpoint checksum_loop (s : Z) (data : bytes) : Z :=
  match data with
  | [] => s
  | [w0] => checksum_step s w0 x00
  | w0 :: w1 :: rest => checksum_loop (checksum_step s w0 w1) rest
  end.

Definition checksum (data : bytes) : Z :=
  Z.land (Z.lnot (checksum_loop 0 data)) 0xffff.

Definition pack_packet (seq ack flags wnd : Z) (payload : bytes) : result bytes :=
  let payload_len := len payload in
  let! hdr := pack_hdr seq ack flags wnd payload_len in
  let body := hdr ++ payload in
  let cks := checksum body in
  let! trailer := pack_uint 2 cks in
  Ret (body ++ trailer).

(** The dict [{"seq", "ack", "flags", "wnd", "payload"}] that [unpack_packet]
    returns. *)
Record Packet : Type := mkPacket {
  seq : Z;
  ack : Z;
  flags : Z;
  wnd : Z;
  payload : bytes
}.

Definition unpack_packet (raw : bytes) : result (option Packet) :=
  if len raw <? HDR_SIZE + 2 then Ret None
  else
    let hdr := slice 0 HDR_SIZE raw in
    let! fields := unpack_hdr hdr in
    let '(seq, ack, flags, wnd, payload_len) := fields in
    let payload := slice HDR_SIZE (HDR_SIZE + payload_len) raw in
    let! cks_recv := unpack_uint 2 (slice (HDR_SIZE + payload_len) (HDR_SIZE + payload_len + 2) raw) in
    let calc := checksum (slice 0 (HDR_SIZE + payload_len) raw) in
    if negb (calc =? cks_recv) then Ret None
    else Ret (Some (mkPacket seq ack flags wnd payload)).

(** ** The reference checksum, as the specification words it

    The data is split into 16-bit big-endian words (a trailing odd byte padded
    with a zero byte), the words are summed, the carry bits are folded back
    into the low 16 bits until none is left, and the result is complemented
    bit by bit within 16 bits. *)

Fixpoint words16 (data : bytes) : list Z :=
  match data with
  | [] => []
  | [b] => [byte_val b * 256]
  | b0 :: b1 :: rest => (byte_val b0 * 256 + byte_val b1) :: words16 rest
  end.

Definition sum_words (ws : list Z) : Z := fold_right Z.add 0 ws.

Equations? fold_carries (x : Z) : Z by wf (Z.to_nat x) lt :=
  fold_carries x with Z_le_gt_dec x 0xffff => {
    | left _ := x;
    | right _ := fold_carries (Z.land x 0xffff + Z.shiftr x 16) }.
Proof.
  change 65535 with (Z.ones 16). rewrite Z.land_ones by lia.
  rewrite Z.shiftr_div_pow2 by lia.
  change (2 ^ 16) with 65536.
  pose proof (Z.div_mod x 65536 ltac:(lia)).
  pose proof (Z.mod_pos_bound x 65536 ltac:(lia)).
  assert (1 <= x / 65536) by (apply Z.div_le_lower_bound; lia).
  lia.
Qed.

Definition complement16 (x : Z) : Z := Z.lxor x 0xffff.

Definition ones_complement_checksum (data : bytes) : Z :=
  complement16 (fold_carries (sum_words (words16 data))).

(** ** The server: [TCPLikeServer]

    [peer] is the [(host, port)] pair that [recvfrom] returns.  The dict
    [self.connections] maps a peer to its state dict. *)

Definition peer : Type := string * Z.

Record state : Type := mkState {
  peer_seq : Z;
  server_seq : Z;
  expected_seq : Z;
  established : bool
}.

(** What a handler does to the outside world, in order: [self.sock.sendto]
    and [time.sleep] (in milliseconds). *)
Inductive event : Type :=
| SendTo (data : bytes) (to : peer)
| Sleep (ms : Z).

Record server : Type := mkServer {
  connections : gmap peer state;
  trace : list event
}.

(** A handler runs on the server object; what it has written to
    [self.connections] and sent before an exception stays done. *)
Definition handler (A : Type) : Type := server -> result A * server.

Definition hret {A : Type} (a : A) : handler A := fun s => (Ret a, s).

Definition hbind {A B : Type} (m : handler A) (k : A -> handler B) : handler B :=
  fun s =>
    match m s with
    | (Ret a, s') => k a s'
    | (Raise e, s') => (Raise e, s')
    end.

Notation "'let*' x ':=' m 'in' k" := (hbind m (fun x => k))
  (at level 10, x name, m at level 200, k at level 200).
Notation "'exec' m 'in' k" := (hbind m (fun _ => k))
  (at level 10, m at level 200, k at level 200).

Definition lift {A : Type} (r : result A) : handler A := fun s => (r, s).

Definition sendto (data : bytes) (to : peer) : handler unit :=
  fun s => (Ret tt, mkServer (connections s) (trace s ++ [SendTo data to])).

Definition sleep (ms : Z) : handler unit :=
  fun s => (Ret tt, mkServer (connections s) (trace s ++ [Sleep ms])).

(** [peer in self.connections] and [self.connections[peer]] *)
Definition find_connection (p : peer) : handler (option state) :=
  fun s => (Ret (connections s !! p), s).

(** [self.connections[peer] = state]; also the write-through of an in-place
    update of the state dict, which the table entry aliases. *)
Definition set_connection (p : peer) (st : state) : handler unit :=
  fun s => (Ret tt, mkServer (<[p := st]> (connections s)) (trace s)).

(** [del self.connections[peer]] *)
Definition del_connection (p : peer) : handler unit :=
  fun s =>
    match connections s !! p with
    | Some _ => (Ret tt, mkServer (delete p (connections s)) (trace s))
    | None => (Raise KeyError, s)
    end.

(** Truth value of a Python integer. *)
Definition truthy (n : Z) : bool := negb (n =? 0).

Definition set_established (st : state) (b : bool) : state :=
  mkState (peer_seq st) (server_seq st) (expected_seq st) b.

Definition set_expected_seq (st : state) (n : Z) : state :=
  mkState (peer_seq st) (server_seq st) n (established st).

(** [TCPLikeServer._handle_packet(self, pkt, peer)]; [server_isn] is the
    value that [random.randint(0, 0x7fffffff)] returns in the SYN branch. *)
Definition _handle_packet (pkt : Packet) (p : peer) (server_isn : Z) : handler unit :=
  if truthy (Z.land (flags pkt) FLAG_SYN) then
    let st := mkState (seq pkt) server_isn (seq pkt + 1) false in
    exec set_connection p st in
    let* synack := lift (pack_packet server_isn (seq pkt + 1) (Z.lor FLAG_SYN FLAG_ACK) 1 []) in
    sendto synack p
  else
    let* found := find_connection p in
    match found with
    | None => hret tt
    | Some st =>
      if truthy (Z.land (flags pkt) FLAG_ACK) && negb (established st) then
        if ack pkt =? server_seq st + 1 then
          set_connection p (set_established st true)
        else hret tt
      else if established st then
        if truthy (Z.land (flags pkt) FLAG_PSH) || (0 <? len (payload pkt)) then
          if seq pkt =? expected_seq st then
            let data := payload pkt in
            let st := set_expected_seq st (expected_seq st + len data) in
            exec set_connection p st in
            let* ack_pkt := lift (pack_packet (server_seq st) (expected_seq st) FLAG_ACK 1 []) in
            sendto ack_pkt p
          else
            let* ack_pkt := lift (pack_packet (server_seq st) (expected_seq st) FLAG_ACK 1 []) in
            sendto ack_pkt p
        else if truthy (Z.land (flags pkt) FLAG_FIN) then
          let st := set_expected_seq st (expected_seq st + 1) in
          exec set_connection p st in
          let* ack_pkt := lift (pack_packet (server_seq st) (expected_seq st) FLAG_ACK 1 []) in
          exec sendto ack_pkt p in
          exec sleep 200 in
          let* fin_pkt := lift (pack_packet (server_seq st) (expected_seq st) FLAG_FIN 1 []) in
          exec sendto fin_pkt p in
          del_connection p
        else hret tt
      else hret tt
    end.

(** The same packet handled [n] times in a row (with the same random draw,
    which only the SYN branch reads). *)
Fixpoint handle_repeated (n : nat) (pkt : Packet) (p : peer) (isn : Z) : handler unit :=
  match n with
  | O => hret tt
  | S k => exec _handle_packet pkt p isn in handle_repeated k pkt p isn
  end.

(** ** The client: [send_and_wait]

    The UDP socket as the client sees it: [inbox] is what the next calls of
    [recvfrom] will give, in order (a datagram, or [socket.timeout]; when
    nothing is left, nothing arrives and the call times out); [outbox] is what
    [sendto] has sent to [SERVER]. *)

Inductive recv : Type :=
| Datagram (raw : bytes)
| Timeout.

Record socket : Type := mkSocket {
  inbox : list recv;
  outbox : list bytes
}.

Definition sock_sendto (pkt : bytes) (sock : socket) : socket :=
  mkSocket (inbox sock) (outbox sock ++ [pkt]).

Definition sock_recvfrom (sock : socket) : recv * socket :=
  match inbox sock with
  | [] => (Timeout, sock)
  | r :: rest => (r, mkSocket rest (outbox sock))
  end.

Definition MAX_RETRIES : Z := 5.

(** [if expected_flags and not (r["flags"] & expected_flags)]: a mask of
    [None] or [0] is falsy and asks for nothing. *)
Definition flags_rejected (expected_flags : option Z) (r : Packet) : bool :=
  match expected_flags with
  | None => false
  | Some m => truthy m && negb (truthy (Z.land (flags r) m))
  end.

(** [if expected_ack is not None and r["ack"] != expected_ack] *)
Definition ack_rejected (expected_ack : option Z) (r : Packet) : bool :=
  match expected_ack with
  | None => false
  | Some a => negb (ack r =? a)
  end.

(** The [while attempts < MAX_RETRIES] loop; [fuel] bounds the number of
    iterations and [None] means that it ran out ([send_and_wait_total] shows
    that it does not).  An exception other than [socket.timeout] leaves the
    function. *)
Fixpoint send_and_wait_loop (fuel : nat) (attempts : Z) (sock : socket) (pkt : bytes)
    (expected_flags expected_ack : option Z) : option (result (option Packet) * socket) :=
  if attempts <? MAX_RETRIES then
    match fuel with
    | O => None
    | S fuel' =>
      let sock := sock_sendto pkt sock in
      match sock_recvfrom sock with
      | (Timeout, sock) =>
        send_and_wait_loop fuel' (attempts + 1) sock pkt expected_flags expected_ack
      | (Datagram raw, sock) =>
        match unpack_packet raw with
        | Raise e => Some (Raise e, sock)
        | Ret None =>
          send_and_wait_loop fuel' (attempts + 1) sock pkt expected_flags expected_ack
        | Ret (Some r) =>
          if flags_rejected expected_flags r then
            send_and_wait_loop fuel' (attempts + 1) sock pkt expected_flags expected_ack
          else if ack_rejected expected_ack r then
            send_and_wait_loop fuel' (attempts + 1) sock pkt expected_flags expected_ack
          else Some (Ret (Some r), sock)
        end
      end
    end
  else Some (Ret None, sock).

Definition send_and_wait (sock : socket) (pkt : bytes)
    (expected_flags expected_ack : option Z) : option (result (option Packet) * socket) :=
  send_and_wait_loop (Z.to_nat MAX_RETRIES) 0 sock pkt expected_flags expected_ack.

(** ** The server's receive loop: [TCPLikeServer.start] *)


(** [while True: raw, peer = self.sock.recvfrom(BUF) ...] run on what the
    successive calls of [recvfrom] return (byte strings of at most [BUF]
    bytes, with their sender), in order; each comes with the value that
    [random.randint] would return if its handler drew one.  A datagram on
    which [unpack_packet] returns [None] is skipped.  A decoded packet is
    handed to a thread that runs [_handle_packet]; an exception in that thread
    ends the thread, not the loop.  An exception of [unpack_packet] is raised
    in the loop itself and ends it.  When the datagrams are used up the loop
    is blocked in [recvfrom], which reads as [Ret tt]. *)
Fixpoint start (incoming : list (bytes * peer * Z)) (s : server) : result unit * server :=
  match incoming with
  | [] => (Ret tt, s)
  | (raw, p, server_isn) :: rest =>
    match unpack_packet raw with
    | Raise e => (Raise e, s)
    | Ret None => start rest s
    | Ret (Some pkt) => start rest (snd (_handle_packet pkt p server_isn s))
    end
  end.

(** ** The client's session: [main]

    Client code runs on the socket; [None] stands for a retry loop that ran
    out of fuel (it does not, see [main_total]). *)
Definition client (A : Type) : Type := socket -> option (result A * socket).

Definition cret {A : Type} (a : A) : client A := fun sock => Some (Ret a, sock).

Definition cbind {A B : Type} (m : client A) (k : A -> client B) : client B :=
  fun sock =>
    match m sock with
    | Some (Ret a, sock') => k a sock'
    | Some (Raise e, sock') => Some (Raise e, sock')
    | None => None
    end.

Notation "'let+' x ':=' m 'in' k" := (cbind m (fun x => k))
  (at level 10, x name, m at level 200, k at level 200).

Definition clift {A : Type} (r : result A) : client A := fun sock => Some (r, sock).

(** [sock.sendto(pkt, SERVER)] *)
Definition csendto (pkt : bytes) : client unit :=
  fun sock => Some (Ret tt, sock_sendto pkt sock).

(** [sock.recvfrom(BUF)] inside [try: ... except socket.timeout:]. *)
Definition crecvfrom : client recv :=
  fun sock => let (got, sock') := sock_recvfrom sock in Some (Ret got, sock').

Definition csend_and_wait (pkt : bytes) (expected_flags expected_ack : option Z)
  : client (option Packet) :=
  fun sock => send_and_wait sock pkt expected_flags expected_ack.

(** [b"Hello from client (reliable over UDP)!"] *)
Definition hello_payload : bytes :=
  String.list_byte_of_string "Hello from client (reliable over UDP)!".

(** How [main] ends when no exception is raised: by the [return] after a
    failed handshake (the socket is left open), or after [sock.close()]. *)
Inductive client_exit : Type := HandshakeFailed | SessionClosed.

(** [main()]; [client_isn] is the value of [random.randint(0, 0x7fffffff)]. *)
Definition main (client_isn : Z) : client client_exit :=
  let+ syn_pkt := clift (pack_packet client_isn 0 FLAG_SYN 1 []) in
  let+ r := csend_and_wait syn_pkt (Some (Z.lor FLAG_SYN FLAG_ACK)) None in
  match r with
  | None => cret HandshakeFailed
  | Some r =>
    let server_isn := seq r in
    let+ ack_pkt := clift (pack_packet (client_isn + 1) (server_isn + 1) FLAG_ACK 1 []) in
    let+ _u := csendto ack_pkt in
    let payload := hello_payload in
    let+ data_pkt := clift (pack_packet (client_isn + 1) (server_isn + 1) FLAG_PSH 1 payload) in
    let+ ack_response :=
      csend_and_wait data_pkt (Some FLAG_ACK) (Some (len payload + (client_isn + 1))) in
    let+ fin_pkt := clift (pack_packet (client_isn + 1) (server_isn + 1) FLAG_FIN 1 []) in
    let+ r := csend_and_wait fin_pkt (Some FLAG_ACK) None in
    match r with
    | Some _ =>
      let+ got := crecvfrom in
      match got with
      | Timeout => cret SessionClosed
      | Datagram raw =>
        let+ rp := clift (unpack_packet raw) in
        match rp with
        | Some rp =>
          if truthy (Z.land (flags rp) FLAG_FIN) then
            let+ final_ack := clift (pack_packet (client_isn + 2) (seq rp + 1) FLAG_ACK 1 []) in
            let+ _u := csendto final_ack in
            cret SessionClosed
          else cret SessionClosed
        | None => cret SessionClosed
        end
      end
    | None => cret SessionClosed
    end
  end.

(** ** Vocabulary of the statements *)

(** [r] is the end-around-carry residue of [x]: the one value of
    [0 .. 65535] that differs from [x] by a multiple of 65535 and is zero only
    if [x] is. *)
Definition residue (x r : Z) : Prop :=
  0 <= r <= 65535 /\ (exists k, 0 <= k /\ x = r + 65535 * k) /\ (r = 0 -> x = 0).

(** The 13 header bytes of a packet. *)
Definition hdr_bytes (seq ack flags wnd payload_len : Z) : bytes :=
  to_be 4 seq ++ to_be 4 ack ++ to_be 1 flags ++ to_be 2 wnd ++ to_be 2 payload_len.

(** The field ranges of the wire format: u32, u32, u8, u16. *)
Definition fields_in_range (seq ack flags wnd : Z) : Prop :=
  0 <= seq <= 0xffffffff /\ 0 <= ack <= 0xffffffff /\
  0 <= flags <= 0xff /\ 0 <= wnd <= 0xffff.

(** The payload length that the header of [raw] announces (bytes 11 and 12). *)
Definition payload_len_field (raw : bytes) : Z := from_be (slice 11 13 raw).

(** The packet that the bytes of [raw] spell out. *)
Definition decoded (raw : bytes) : Packet :=
  mkPacket (from_be (slice 0 4 raw)) (from_be (slice 4 8 raw))
           (from_be (slice 8 9 raw)) (from_be (slice 9 11 raw))
           (slice 13 (13 + payload_len_field raw) raw).

(** The specification's wording of a bad checksum: the checksum over [raw]
    minus its last two bytes differs from those two bytes. *)
Definition trailing_checksum_mismatch (raw : bytes) : Prop :=
  checksum (slice 0 (len raw - 2) raw) <> from_be (slice (len raw - 2) (len raw) raw).

(** A 15-byte datagram whose header announces one payload byte. *)
Definition truncated_datagram : bytes :=
  [x00; x00; x00; x00; x00; x00; x00; x00; x00; x00; x00; x00; x01; x00; x00].

(** A valid empty packet followed by one more byte. *)
Definition overlong_datagram : bytes :=
  [x00; x00; x00; x00; x00; x00; x00; x00; x00; x00; x00; x00; x00; xff; xff; x01].

(** [raw] is what [pack_packet] makes of [pkt], and decodes to it. *)
Definition is_packet (raw : bytes) (pkt : Packet) : Prop :=
  pack_packet (seq pkt) (ack pkt) (flags pkt) (wnd pkt) (payload pkt) = Ret raw /\
  unpack_packet raw = Ret (Some pkt).

(** What holds of every state dict the server ever stores, for packets that
    [unpack_packet] produced: [server_seq] is a draw of
    [random.randint(0, 0x7fffffff)] and [expected_seq] is not negative. *)
Definition wf_state (st : state) : Prop :=
  0 <= server_seq st <= 0x7fffffff /\ 0 <= expected_seq st.

Definition has_flag (pkt : Packet) (flag : Z) : bool :=
  truthy (Z.land (flags pkt) flag).

(** A client address for the concrete runs below. *)
Definition p0 : peer := ("127.0.0.1"%string, 50000).

(** A packet that the established branch treats as data. *)
Definition is_data (pkt : Packet) : bool :=
  has_flag pkt FLAG_PSH || (0 <? len (payload pkt)).

(** The server after a handshake with [p0]: SYN with sequence [sq] (the
    server draws 77), then the ACK of the SYN|ACK. *)
Definition after_handshake (sq : Z) : server :=
  snd (_handle_packet (mkPacket (sq + 1) 78 FLAG_ACK 1 []) p0 0
         (snd (_handle_packet (mkPacket sq 0 FLAG_SYN 1 []) p0 77 (mkServer ∅ [])))).

(** The server after the SYN of that handshake only. *)
Definition after_syn (sq : Z) : server :=
  snd (_handle_packet (mkPacket sq 0 FLAG_SYN 1 []) p0 77 (mkServer ∅ [])).

(** The servers that handling packets one after the other can produce from
    the empty table, for packets with a sequence number that is not negative
    and draws of [random.randint(0, 0x7fffffff)]. *)
Inductive reachable : server -> Prop :=
| reach_init : reachable (mkServer ∅ [])
| reach_step (s : server) (pkt : Packet) (q : peer) (isn : Z) :
    reachable s -> 0 <= seq pkt -> 0 <= isn <= 0x7fffffff ->
    reachable (snd (_handle_packet pkt q isn s)).

(** Acceptance as the specification words it: the datagram decodes, the
    flags meet the mask if one is asked for (a mask of 0 asks for nothing) and
    the acknowledgment is the one asked for, if any. *)
Definition flags_ok (expected_flags : option Z) (r : Packet) : bool :=
  match expected_flags with
  | None => true
  | Some m => (m =? 0) || negb (Z.land (flags r) m =? 0)
  end.

Definition ack_ok (expected_ack : option Z) (r : Packet) : bool :=
  match expected_ack with
  | None => true
  | Some a => ack r =? a
  end.

Definition accepted (expected_flags expected_ack : option Z) (got : recv) : option Packet :=
  match got with
  | Timeout => None
  | Datagram raw =>
    match unpack_packet raw with
    | Ret (Some r) =>
      if flags_ok expected_flags r && ack_ok expected_ack r then Some r else None
    | _ => None
    end
  end.

(** [n] attempts, each one send of [pkt] and one receive; the first accepted
    packet ends them. *)
Fixpoint attempts_spec (n : nat) (sock : socket) (pkt : bytes)
    (expected_flags expected_ack : option Z) : option Packet * socket :=
  match n with
  | O => (None, sock)
  | S k =>
    let (got, sock) := sock_recvfrom (sock_sendto pkt sock) in
    match accepted expected_flags expected_ack got with
    | Some r => (Some r, sock)
    | None => attempts_spec k sock pkt expected_flags expected_ack
    end
  end.

(** The receive does not make [unpack_packet] raise. *)
Definition decodes (got : recv) : bool :=
  match got with
  | Timeout => true
  | Datagram raw =>
    match unpack_packet raw with
    | Ret _ => true
    | Raise _ => false
    end
  end.

(** The sum of the 16-bit words, byte by byte: a byte at an even offset is
    the high byte of its word. *)
Fixpoint weighted_sum (high : bool) (data : bytes) : Z :=
  match data with
  | [] => 0
  | b :: rest => (if high then 256 else 1) * byte_val b + weighted_sum (negb high) rest
  end.

(** An event that a handler for a packet of [q] may add to the trace: a
    datagram sent to [q] that [unpack_packet] accepts, or the 200 ms sleep. *)
Definition reply_to (q : peer) (e : event) : Prop :=
  match e with
  | SendTo raw to => to = q /\ exists pk, unpack_packet raw = Ret (Some pk)
  | Sleep ms => ms = 200
  end.

(** What holds of the sequence numbers of a stored state. *)
Definition seq_invariant (st : state) : Prop :=
  0 <= peer_seq st < expected_seq st /\
  (established st = false -> expected_seq st = peer_seq st + 1).

(** A SYN|ACK with the largest sequence number, as [pack_packet] encodes it. *)
Definition max_sequence_synack : bytes :=
  [xff; xff; xff; xff; x00; x00; x03; xe9; x03; x00; x01; x00; x00; xf8; x16].

(** * Properties *)

(** ** Bytes and big-endian integers *)

Lemma byte_val_range (b : byte) : 0 <= byte_val b <= 255.
Proof.
  unfold byte_val. pose proof (Byte.to_N_bounded b). lia.
Qed.

Lemma byte_val_of (z : Z) : byte_val (byte_of z) = z mod 256.
Proof.
  unfold byte_val, byte_of.
  pose proof (Z.mod_pos_bound z 256 ltac:(lia)) as Hb.
  destruct (Byte.of_N (Z.to_N (z mod 256))) as [b|] eqn:E.
  - apply Byte.to_of_N in E. rewrite E. lia.
  - apply Byte.of_N_None_iff in E. lia.
Qed.

Lemma byte_of_val (b : byte) : byte_of (byte_val b) = b.
Proof.
  unfold byte_of. pose proof (byte_val_range b) as Hb.
  rewrite Z.mod_small by lia. unfold byte_val.
  rewrite N2Z.id, Byte.of_to_N. reflexivity.
Qed.

Lemma len_app {A : Type} (l1 l2 : list A) : len (l1 ++ l2) = len l1 + len l2.
Proof. unfold len. rewrite length_app. lia. Qed.

Lemma len_nonneg {A : Type} (l : list A) : 0 <= len l.
Proof. unfold len. lia. Qed.

(** ** The checksum *)

Lemma land_ffff (x : Z) : 0 <= x -> Z.land x 0xffff = x mod 65536.
Proof.
  intros Hx. change 65535 with (Z.ones 16). rewrite Z.land_ones by lia.
  reflexivity.
Qed.

Lemma shiftr_16 (x : Z) : Z.shiftr x 16 = x / 65536.
Proof. rewrite Z.shiftr_div_pow2 by lia. reflexivity. Qed.

Lemma residue_unique (x r r' : Z) : residue x r -> residue x r' -> r = r'.
Proof.
  intros (Hr & (k & Hk & Hx) & Hz) (Hr' & (k' & Hk' & Hx') & Hz'). lia.
Qed.

Lemma fold_once (x : Z) :
  0 <= x ->
  Z.land x 0xffff + Z.shiftr x 16 = x - 65535 * (x / 65536) /\
  0 <= x / 65536 /\ 0 <= x mod 65536 < 65536.
Proof.
  intros Hx. rewrite land_ffff, shiftr_16 by lia.
  pose proof (Z.div_mod x 65536 ltac:(lia)).
  pose proof (Z.mod_pos_bound x 65536 ltac:(lia)).
  pose proof (Z.div_pos x 65536 Hx ltac:(lia)).
  lia.
Qed.

Lemma fold_carries_residue (x : Z) : 0 <= x -> residue x (fold_carries x).
Proof.
  funelim (fold_carries x); intros Hx.
  - repeat split; try lia. exists 0. lia.
  - clear Heqcall Heq.
    destruct (fold_once x Hx) as (Hf & Hq & Hm).
    assert (1 <= x / 65536) as Hq1 by (apply Z.div_le_lower_bound; lia).
    pose proof (Z.div_mod x 65536 ltac:(lia)) as Hdm.
    match goal with IH : _ -> residue _ _ |- _ =>
      destruct IH as (Hr & (k & Hk & Hxk) & Hz); [lia|] end.
    repeat split; try lia.
    exists (k + x / 65536). lia.
Qed.

Lemma checksum_step_spec (s : Z) (w0 w1 : byte) :
  0 <= s <= 65535 ->
  let w := byte_val w0 * 256 + byte_val w1 in
  let s' := checksum_step s w0 w1 in
  0 <= s' <= 65535 /\
  (exists k, 0 <= k /\ s + w = s' + 65535 * k) /\
  (s' = 0 -> s + w = 0).
Proof.
  intros Hs w s'. subst s'. unfold checksum_step.
  rewrite Z.shiftl_mul_pow2 by lia. change (2 ^ 8) with 256. fold w.
  pose proof (byte_val_range w0). pose proof (byte_val_range w1).
  assert (0 <= s + w <= 131070) as Hsw by (subst w; lia).
  destruct (fold_once (s + w) ltac:(lia)) as (Hf & Hq & Hm).
  rewrite Hf.
  pose proof (Z.div_mod (s + w) 65536 ltac:(lia)) as Hdm.
  assert (s + w < 65536 \/ 65536 <= s + w) as [Hlt | Hge] by lia.
  - rewrite Z.div_small by lia. repeat split; try lia. exists 0. lia.
  - assert ((s + w) / 65536 = 1) as Hq1.
    { symmetry. apply (Z.div_unique _ _ 1 (s + w - 65536)); lia. }
    rewrite Hq1. repeat split; try lia. exists 1. lia.
Qed.

Lemma bytes_pair_ind (P : bytes -> Prop) :
  P [] ->
  (forall b, P [b]) ->
  (forall b0 b1 rest, P rest -> P (b0 :: b1 :: rest)) ->
  forall data, P data.
Proof.
  intros H0 H1 H2.
  assert (forall data, P data /\ forall b, P (b :: data)) as H.
  { induction data as [|b data [IH IHc]]; split; auto. }
  intros data. apply H.
Qed.

Lemma sum_words_nonneg (data : bytes) : 0 <= sum_words (words16 data).
Proof.
  induction data as [| b | b0 b1 rest IH] using bytes_pair_ind; simpl.
  - lia.
  - pose proof (byte_val_range b). lia.
  - pose proof (byte_val_range b0). pose proof (byte_val_range b1). lia.
Qed.

Lemma byte_val_x00 : byte_val x00 = 0.
Proof. reflexivity. Qed.

Lemma checksum_loop_residue (data : bytes) :
  forall s, 0 <= s <= 65535 ->
  residue (s + sum_words (words16 data)) (checksum_loop s data).
Proof.
  induction data as [| b | b0 b1 rest IH] using bytes_pair_ind; intros s Hs.
  - simpl. repeat split; try lia. exists 0. lia.
  - cbn [checksum_loop words16 sum_words fold_right].
    destruct (checksum_step_spec s b x00 Hs) as (Hr & (k & Hk & Hx) & Hz).
    rewrite byte_val_x00 in Hx, Hz.
    repeat split; try lia. exists k. lia.
  - cbn [checksum_loop words16 sum_words fold_right].
    destruct (checksum_step_spec s b0 b1 Hs) as (Hr & (k & Hk & Hx) & Hz).
    destruct (IH _ Hr) as (Hr' & (k' & Hk' & Hx') & Hz').
    pose proof (sum_words_nonneg rest) as Hn. unfold sum_words in *.
    repeat split; try lia. exists (k + k'). lia.
Qed.

Lemma checksum_loop_range (data : bytes) : 0 <= checksum_loop 0 data <= 65535.
Proof. apply (checksum_loop_residue data 0); lia. Qed.

Lemma lnot_land_ffff (r : Z) :
  0 <= r <= 65535 -> Z.land (Z.lnot r) 0xffff = 65535 - r.
Proof.
  intros Hr. change 65535 with (Z.ones 16) at 1.
  rewrite Z.land_ones by lia. unfold Z.lnot.
  symmetry. apply (Z.mod_unique _ _ (-1)); simpl; lia.
Qed.

Lemma lnot_land_lxor (r : Z) :
  0 <= r <= 65535 -> Z.land (Z.lnot r) 0xffff = complement16 r.
Proof.
  intros Hr. unfold complement16. apply Z.bits_inj'. intros n Hn.
  rewrite Z.land_spec, Z.lxor_spec, Z.lnot_spec by lia.
  change 65535 with (Z.ones 16). rewrite Z.testbit_ones_nonneg by lia.
  destruct (n <? 16) eqn:E.
  - rewrite andb_true_r, xorb_true_r. reflexivity.
  - rewrite andb_false_r, xorb_false_r.
    apply Z.ltb_ge in E. symmetry.
    rewrite <- (Z.mod_small r (2 ^ 16)) by (simpl; lia).
    apply Z.mod_pow2_bits_high. lia.
Qed.

(** C3: for every byte string, [checksum] returns a value of [0 .. 65535]
    that equals the reference 16-bit one's-complement checksum: big-endian
    16-bit words (an odd last byte padded with a zero byte), summed, the
    carries folded back into the low 16 bits until none is left, and the
    result complemented bit by bit. *)
Theorem checksum_is_ones_complement (data : bytes) :
  0 <= checksum data <= 65535 /\
  checksum data = ones_complement_checksum data.
Proof.
  pose proof (checksum_loop_residue data 0 ltac:(lia)) as Hloop.
  pose proof (fold_carries_residue _ (sum_words_nonneg data)) as Href.
  rewrite Z.add_0_l in Hloop.
  pose proof (residue_unique _ _ _ Hloop Href) as Heq.
  pose proof (checksum_loop_range data) as Hr.
  unfold checksum, ones_complement_checksum. split.
  - rewrite lnot_land_ffff by lia. lia.
  - rewrite lnot_land_lxor by lia. rewrite Heq. reflexivity.
Qed.

(** ** Slices and big-endian fields *)

Lemma slice_mid {A : Type} (a b : Z) (pre x post : list A) :
  len pre = a -> len x = b - a -> slice a b (pre ++ x ++ post) = x.
Proof.
  unfold slice, len. intros Ha Hb.
  rewrite drop_app_length' by lia.
  rewrite take_app_length' by lia. reflexivity.
Qed.

Lemma slice_prefix {A : Type} (b : Z) (x post : list A) :
  len x = b -> slice 0 b (x ++ post) = x.
Proof.
  intros Hb. apply (slice_mid 0 b [] x post); [reflexivity | lia].
Qed.

Lemma slice_suffix {A : Type} (a b : Z) (pre x : list A) :
  len pre = a -> len x = b - a -> slice a b (pre ++ x) = x.
Proof.
  intros Ha Hb. rewrite <- (app_nil_r x) at 1. apply slice_mid; assumption.
Qed.

Lemma len_slice {A : Type} (a b : Z) (l : list A) :
  0 <= a -> a <= b -> b <= len l -> len (slice a b l) = b - a.
Proof.
  unfold slice, len. intros Ha Hab Hb.
  rewrite length_take, length_drop. lia.
Qed.

Lemma length_to_be (n : nat) (v : Z) : length (to_be n v) = n.
Proof. induction n as [|n IH]; simpl; congruence. Qed.

Lemma len_to_be (n : nat) (v : Z) : len (to_be n v) = Z.of_nat n.
Proof. unfold len. rewrite length_to_be. reflexivity. Qed.

Lemma from_be_acc (bs : bytes) (acc : Z) :
  fold_left (fun acc b => acc * 256 + byte_val b) bs acc
  = acc * 256 ^ len bs + from_be bs.
Proof.
  unfold from_be. revert acc.
  induction bs as [|b bs IH]; intros acc; simpl.
  - change (len (@nil byte)) with 0. lia.
  - rewrite (IH (acc * 256 + byte_val b)), (IH (0 * 256 + byte_val b)).
    replace (len (b :: bs)) with (Z.succ (len bs)) by (unfold len; simpl; lia).
    rewrite Z.pow_succ_r by apply len_nonneg. lia.
Qed.

Lemma from_be_cons (b : byte) (bs : bytes) :
  from_be (b :: bs) = byte_val b * 256 ^ len bs + from_be bs.
Proof.
  unfold from_be at 1. simpl. rewrite from_be_acc. reflexivity.
Qed.

Lemma from_be_range (bs : bytes) : 0 <= from_be bs < 256 ^ len bs.
Proof.
  induction bs as [|b bs IH].
  - unfold from_be, len. simpl. lia.
  - rewrite from_be_cons.
    replace (len (b :: bs)) with (Z.succ (len bs)) by (unfold len; simpl; lia).
    rewrite Z.pow_succ_r by apply len_nonneg.
    pose proof (byte_val_range b). nia.
Qed.

Lemma from_be_to_be_mod (n : nat) (v : Z) :
  from_be (to_be n v) = v mod 2 ^ (8 * Z.of_nat n).
Proof.
  induction n as [|n IH].
  - simpl. rewrite Z.mod_1_r. reflexivity.
  - cbn [to_be]. rewrite from_be_cons, len_to_be, IH, byte_val_of.
    rewrite Z.shiftr_div_pow2 by lia.
    replace (256 ^ Z.of_nat n) with (2 ^ (8 * Z.of_nat n))
      by (rewrite Z.pow_mul_r by lia; reflexivity).
    replace (8 * Z.of_nat (S n)) with (8 * Z.of_nat n + 8) by lia.
    rewrite Z.pow_add_r by lia. change (2 ^ 8) with 256.
    rewrite Z.rem_mul_r by lia. lia.
Qed.

Lemma from_be_to_be (n : nat) (v : Z) :
  0 <= v < 2 ^ (8 * Z.of_nat n) -> from_be (to_be n v) = v.
Proof.
  intros Hv. rewrite from_be_to_be_mod. apply Z.mod_small. exact Hv.
Qed.

Lemma pack_uint_ok (n : nat) (v : Z) :
  0 <= v < 2 ^ (8 * Z.of_nat n) -> pack_uint n v = Ret (to_be n v).
Proof.
  intros [Hlo Hhi]. unfold pack_uint.
  apply Z.leb_le in Hlo. apply Z.ltb_lt in Hhi. rewrite Hlo, Hhi. reflexivity.
Qed.

Lemma pack_uint_out_of_range (n : nat) (v : Z) :
  v < 0 \/ 2 ^ (8 * Z.of_nat n) <= v -> pack_uint n v = Raise StructError.
Proof.
  intros Hv. unfold pack_uint.
  destruct (0 <=? v) eqn:E1; [|reflexivity].
  destruct (v <? 2 ^ (8 * Z.of_nat n)) eqn:E2; [|reflexivity].
  apply Z.leb_le in E1. apply Z.ltb_lt in E2. lia.
Qed.

Lemma len_hdr_bytes (seq ack flags wnd n : Z) :
  len (hdr_bytes seq ack flags wnd n) = 13.
Proof.
  unfold hdr_bytes. rewrite !len_app, !len_to_be. reflexivity.
Qed.

Lemma pack_hdr_ok (seq ack flags wnd n : Z) :
  fields_in_range seq ack flags wnd -> 0 <= n <= 0xffff ->
  pack_hdr seq ack flags wnd n = Ret (hdr_bytes seq ack flags wnd n).
Proof.
  intros (Hs & Ha & Hf & Hw) Hn. unfold pack_hdr.
  rewrite !pack_uint_ok by (simpl; lia). reflexivity.
Qed.

Lemma unpack_hdr_bytes (seq ack flags wnd n : Z) :
  fields_in_range seq ack flags wnd -> 0 <= n <= 0xffff ->
  unpack_hdr (hdr_bytes seq ack flags wnd n) = Ret (seq, ack, flags, wnd, n).
Proof.
  intros (Hs & Ha & Hf & Hw) Hn. unfold unpack_hdr.
  pose proof (len_hdr_bytes seq ack flags wnd n) as Hlen. unfold len in Hlen.
  replace (length (hdr_bytes seq ack flags wnd n)) with 13%nat by lia.
  cbn [Nat.eqb]. unfold hdr_bytes.
  rewrite (slice_prefix 4) by apply len_to_be.
  rewrite (slice_mid 4 8 (to_be 4 seq)) by (rewrite len_to_be; reflexivity).
  rewrite (app_assoc (to_be 4 seq)).
  rewrite (slice_mid 8 9 (to_be 4 seq ++ to_be 4 ack))
    by (rewrite ?len_app, !len_to_be; reflexivity).
  rewrite (app_assoc (_ ++ _)).
  rewrite (slice_mid 9 11 ((to_be 4 seq ++ to_be 4 ack) ++ to_be 1 flags))
    by (rewrite ?len_app, !len_to_be; reflexivity).
  rewrite (app_assoc (_ ++ _)).
  rewrite (slice_suffix 11 13)
    by (rewrite ?len_app, !len_to_be; reflexivity).
  rewrite !from_be_to_be by (simpl; lia). reflexivity.
Qed.

(** ** Encoding and decoding *)

Lemma checksum_range (data : bytes) : 0 <= checksum data <= 65535.
Proof.
  pose proof (checksum_loop_range data) as Hr. unfold checksum.
  rewrite lnot_land_ffff by lia. lia.
Qed.

Lemma pack_packet_ok (seq ack flags wnd : Z) (payload : bytes) :
  fields_in_range seq ack flags wnd -> len payload <= 0xffff ->
  pack_packet seq ack flags wnd payload =
  Ret ((hdr_bytes seq ack flags wnd (len payload) ++ payload)
       ++ to_be 2 (checksum (hdr_bytes seq ack flags wnd (len payload) ++ payload))).
Proof.
  intros Hf Hn. unfold pack_packet.
  pose proof (len_nonneg payload).
  rewrite pack_hdr_ok by (auto; lia). cbn [rbind].
  cbv zeta.
  pose proof (checksum_range (hdr_bytes seq ack flags wnd (len payload) ++ payload)).
  rewrite pack_uint_ok by (change (2 ^ (8 * Z.of_nat 2)) with 65536; lia).
  reflexivity.
Qed.

Lemma unpack_packet_of_parts (seq ack flags wnd : Z) (payload : bytes) :
  fields_in_range seq ack flags wnd -> len payload <= 0xffff ->
  unpack_packet
    ((hdr_bytes seq ack flags wnd (len payload) ++ payload)
     ++ to_be 2 (checksum (hdr_bytes seq ack flags wnd (len payload) ++ payload)))
  = Ret (Some (mkPacket seq ack flags wnd payload)).
Proof.
  intros Hf Hn. pose proof (len_nonneg payload) as Hp.
  pose proof (unpack_hdr_bytes seq ack flags wnd (len payload) Hf ltac:(lia)) as Hu.
  pose proof (len_hdr_bytes seq ack flags wnd (len payload)) as Hh.
  pose proof (checksum_range (hdr_bytes seq ack flags wnd (len payload) ++ payload)) as Hc.
  set (hdr := hdr_bytes seq ack flags wnd (len payload)) in *.
  set (cks := checksum (hdr ++ payload)) in *.
  assert (len (to_be 2 cks) = 2) as Ht by apply len_to_be.
  unfold unpack_packet, HDR_SIZE.
  replace (len ((hdr ++ payload) ++ to_be 2 cks) <? 13 + 2) with false
    by (symmetry; apply Z.ltb_ge; rewrite !len_app; lia).
  rewrite <- (app_assoc hdr) at 1. rewrite (slice_prefix 13) by exact Hh.
  rewrite Hu. cbn [rbind].
  rewrite (slice_suffix (13 + len payload) (13 + len payload + 2))
    by (rewrite ?len_app; lia).
  unfold unpack_uint. rewrite length_to_be. cbn [Nat.eqb rbind].
  rewrite (slice_prefix (13 + len payload)) by (rewrite len_app; lia).
  fold cks. rewrite from_be_to_be
    by (change (2 ^ (8 * Z.of_nat 2)) with 65536; lia).
  rewrite Z.eqb_refl. cbn [negb].
  rewrite <- (app_assoc hdr).
  rewrite (slice_mid 13 (13 + len payload)) by lia.
  reflexivity.
Qed.

(** C2: for all field values in their ranges (u32, u32, u8, u16) and every
    payload of at most 65535 bytes, [pack_packet] returns a byte string and
    [unpack_packet] of it returns the packet with the same sequence,
    acknowledgment, flags, window and payload. *)
Theorem unpack_pack_roundtrip (seq ack flags wnd : Z) (payload : bytes) :
  fields_in_range seq ack flags wnd ->
  len payload <= 65535 ->
  exists raw,
    pack_packet seq ack flags wnd payload = Ret raw /\
    unpack_packet raw = Ret (Some (mkPacket seq ack flags wnd payload)).
Proof.
  intros Hf Hn. eexists. split.
  - apply pack_packet_ok; assumption.
  - apply unpack_packet_of_parts; assumption.
Qed.

Lemma unpack_pack_roundtrip_witness :
  fields_in_range 1001 0 FLAG_PSH 1 /\
  len [x68; x65; x6c; x6c; x6f] <= 65535 /\
  exists raw,
    pack_packet 1001 0 FLAG_PSH 1 [x68; x65; x6c; x6c; x6f] = Ret raw /\
    unpack_packet raw
    = Ret (Some (mkPacket 1001 0 FLAG_PSH 1 [x68; x65; x6c; x6c; x6f])).
Proof.
  assert (fields_in_range 1001 0 FLAG_PSH 1) as Hf
    by (unfold fields_in_range, FLAG_PSH; lia).
  assert (len [x68; x65; x6c; x6c; x6f] <= 65535) as Hn
    by (vm_compute; discriminate).
  split; [exact Hf | split; [exact Hn |]].
  exact (unpack_pack_roundtrip 1001 0 FLAG_PSH 1 [x68; x65; x6c; x6c; x6f] Hf Hn).
Defined.

(** ** What [unpack_packet] does on an arbitrary datagram *)

Lemma length_slice {A : Type} (a b : Z) (l : list A) :
  length (slice a b l)
  = Nat.min (Z.to_nat (b - a)) (length l - Z.to_nat a)%nat.
Proof. unfold slice. rewrite length_take, length_drop. reflexivity. Qed.

Lemma slice_slice_prefix {A : Type} (a b c : Z) (l : list A) :
  0 <= a -> a <= b -> b <= c -> slice a b (slice 0 c l) = slice a b l.
Proof.
  intros Ha Hab Hbc. unfold slice. rewrite Z.sub_0_r. simpl skipn.
  rewrite skipn_firstn_comm, take_take. f_equal. lia.
Qed.

Lemma unpack_packet_short (raw : bytes) :
  len raw < 15 -> unpack_packet raw = Ret None.
Proof.
  intros H. unfold unpack_packet, HDR_SIZE.
  replace (len raw <? 13 + 2) with true by (symmetry; apply Z.ltb_lt; lia).
  reflexivity.
Qed.

Lemma unpack_packet_unfold (raw : bytes) :
  15 <= len raw ->
  unpack_packet raw =
    let n := payload_len_field raw in
    if len raw <? 13 + n + 2 then Raise StructError
    else if checksum (slice 0 (13 + n) raw) =? from_be (slice (13 + n) (13 + n + 2) raw)
         then Ret (Some (decoded raw))
         else Ret None.
Proof.
  intros Hlen. unfold unpack_packet, HDR_SIZE, unpack_hdr, decoded.
  replace (len raw <? 13 + 2) with false by (symmetry; apply Z.ltb_ge; lia).
  assert (length (slice 0 13 raw) = 13%nat) as Hh
    by (rewrite length_slice; unfold len in Hlen; lia).
  rewrite Hh. cbn [Nat.eqb rbind].
  rewrite !slice_slice_prefix by lia.
  fold (payload_len_field raw). cbv zeta.
  set (n := payload_len_field raw).
  assert (0 <= n) as Hn by (apply from_be_range).
  unfold unpack_uint.
  pose proof (length_slice (13 + n) (13 + n + 2) raw) as Hl.
  unfold len in *.
  destruct (Z.ltb_spec (Z.of_nat (length raw)) (13 + n + 2)) as [Hlt | Hge].
  - destruct (Nat.eqb_spec (length (slice (13 + n) (13 + n + 2) raw)) 2) as [E | E].
    + lia.
    + reflexivity.
  - destruct (Nat.eqb_spec (length (slice (13 + n) (13 + n + 2) raw)) 2) as [E | E].
    + cbn [rbind].
      destruct (checksum (slice 0 (13 + n) raw)
                =? from_be (slice (13 + n) (13 + n + 2) raw)); reflexivity.
    + lia.
Qed.

(** A datagram of 15 bytes or more that is shorter than its header announces
    makes [struct.unpack("!H", ...)] raise: neither [None] nor a packet. *)
Lemma unpack_packet_truncated (raw : bytes) :
  15 <= len raw -> len raw < 13 + payload_len_field raw + 2 ->
  unpack_packet raw = Raise StructError.
Proof.
  intros Hlen Hshort. rewrite unpack_packet_unfold by exact Hlen. cbv zeta.
  replace (len raw <? 13 + payload_len_field raw + 2) with true
    by (symmetry; apply Z.ltb_lt; lia).
  reflexivity.
Qed.

Lemma unpack_packet_truncated_datagram :
  unpack_packet truncated_datagram = Raise StructError.
Proof. reflexivity. Qed.

(** C1 as stated fails: [unpack_packet] accepts a datagram that carries a
    byte after its checksum, although the checksum over the datagram minus
    its last two bytes does not match those two bytes. *)
Lemma unpack_packet_overlong_counterexample :
  ~ (unpack_packet overlong_datagram = Ret None <->
     len overlong_datagram < 15 \/ trailing_checksum_mismatch overlong_datagram).
Proof.
  intros [_ H].
  assert (unpack_packet overlong_datagram = Ret None) as Hnone.
  { apply H. right. unfold trailing_checksum_mismatch. vm_compute. discriminate. }
  vm_compute in Hnone. discriminate Hnone.
Qed.

(** C1, amended: on a datagram that is shorter than 15 bytes, or that holds
    the payload its header announces and two more bytes, [unpack_packet]
    returns [None] exactly when the datagram is shorter than 15 bytes or the
    checksum over the header and the announced payload differs from the two
    bytes after them; otherwise it returns the packet with the fields of the
    header and the announced payload.  It is a function of [raw] alone. *)
Theorem unpack_packet_invalid_iff (raw : bytes) :
  len raw < 15 \/ 13 + payload_len_field raw + 2 <= len raw ->
  let n := payload_len_field raw in
  (unpack_packet raw = Ret None <->
   len raw < 15 \/
   checksum (slice 0 (13 + n) raw) <> from_be (slice (13 + n) (13 + n + 2) raw)) /\
  (unpack_packet raw = Ret None \/ unpack_packet raw = Ret (Some (decoded raw))).
Proof.
  intros Hwf n.
  destruct (Z.lt_ge_cases (len raw) 15) as [Hshort | Hlong].
  - rewrite unpack_packet_short by exact Hshort. split; [|left; reflexivity].
    split; intros _; [left; exact Hshort | reflexivity].
  - rewrite unpack_packet_unfold by lia. cbv zeta. fold n.
    replace (len raw <? 13 + n + 2) with false
      by (symmetry; apply Z.ltb_ge; subst n; lia).
    destruct (Z.eqb_spec (checksum (slice 0 (13 + n) raw))
                         (from_be (slice (13 + n) (13 + n + 2) raw))) as [E | E].
    + split; [|right; reflexivity].
      split; [discriminate | intros [H | H]; [lia | contradiction]].
    + split; [|left; reflexivity].
      split; intros _; [right; exact E | reflexivity].
Qed.

Lemma unpack_packet_invalid_iff_witness :
  (len overlong_datagram < 15 \/
   13 + payload_len_field overlong_datagram + 2 <= len overlong_datagram) /\
  unpack_packet overlong_datagram = Ret (Some (mkPacket 0 0 0 0 [])).
Proof.
  assert (len overlong_datagram < 15 \/
          13 + payload_len_field overlong_datagram + 2 <= len overlong_datagram)
    as Hwf by (right; vm_compute; discriminate).
  split; [exact Hwf |].
  destruct (unpack_packet_invalid_iff overlong_datagram Hwf) as [_ [H | H]].
  - vm_compute in H. discriminate H.
  - rewrite H. reflexivity.
Defined.

(** ** The server's packet handler *)

Lemma pack_packet_is_packet (sq ak fl wn : Z) (pl : bytes) :
  fields_in_range sq ak fl wn -> len pl <= 0xffff ->
  exists raw,
    pack_packet sq ak fl wn pl = Ret raw /\ is_packet raw (mkPacket sq ak fl wn pl).
Proof.
  intros Hf Hn. eexists. split; [apply pack_packet_ok; assumption |].
  split; cbn [seq ack flags wnd payload].
  - apply pack_packet_ok; assumption.
  - apply unpack_packet_of_parts; assumption.
Qed.

Lemma pack_packet_bad_ack (sq ak fl wn : Z) (pl : bytes) :
  0 <= sq <= 0xffffffff -> 0xffffffff < ak ->
  pack_packet sq ak fl wn pl = Raise StructError.
Proof.
  intros Hs Ha. unfold pack_packet, pack_hdr.
  rewrite (pack_uint_ok 4 sq) by (simpl; lia). cbn [rbind].
  rewrite (pack_uint_out_of_range 4 ak) by (simpl; lia). reflexivity.
Qed.

Lemma server_eta (s : server) : mkServer (connections s) (trace s) = s.
Proof. destruct s; reflexivity. Qed.

(** The SYN branch, whatever the table holds. *)
Lemma handle_syn (s : server) (pkt : Packet) (p : peer) (isn : Z) :
  has_flag pkt FLAG_SYN = true ->
  _handle_packet pkt p isn s =
    match pack_packet isn (seq pkt + 1) (Z.lor FLAG_SYN FLAG_ACK) 1 [] with
    | Ret synack =>
      (Ret tt, mkServer (<[p := mkState (seq pkt) isn (seq pkt + 1) false]> (connections s))
                        (trace s ++ [SendTo synack p]))
    | Raise e =>
      (Raise e, mkServer (<[p := mkState (seq pkt) isn (seq pkt + 1) false]> (connections s))
                         (trace s))
    end.
Proof.
  unfold has_flag. intros Hsyn. unfold _handle_packet. rewrite Hsyn.
  unfold hbind, set_connection, lift, sendto. cbn [connections trace].
  destruct (pack_packet isn (seq pkt + 1) (Z.lor FLAG_SYN FLAG_ACK) 1 []); reflexivity.
Qed.

(** A packet without the SYN flag from a peer that has no table entry. *)
Lemma handle_unknown_peer (s : server) (pkt : Packet) (p : peer) (isn : Z) :
  has_flag pkt FLAG_SYN = false ->
  connections s !! p = None ->
  _handle_packet pkt p isn s = (Ret tt, s).
Proof.
  unfold has_flag. intros Hsyn Hnone. unfold _handle_packet. rewrite Hsyn.
  unfold hbind, find_connection. rewrite Hnone. reflexivity.
Qed.

(** A packet without the SYN flag from a peer whose entry is [st]: the rest
    of the handler, with the state dict in hand. *)
Lemma handle_known_peer (s : server) (pkt : Packet) (p : peer) (isn : Z) (st : state) :
  has_flag pkt FLAG_SYN = false ->
  connections s !! p = Some st ->
  _handle_packet pkt p isn s =
    (if has_flag pkt FLAG_ACK && negb (established st) then
       if ack pkt =? server_seq st + 1 then
         set_connection p (set_established st true)
       else hret tt
     else if established st then
       if has_flag pkt FLAG_PSH || (0 <? len (payload pkt)) then
         if seq pkt =? expected_seq st then
           let st' := set_expected_seq st (expected_seq st + len (payload pkt)) in
           exec set_connection p st' in
           let* ack_pkt := lift (pack_packet (server_seq st') (expected_seq st') FLAG_ACK 1 []) in
           sendto ack_pkt p
         else
           let* ack_pkt := lift (pack_packet (server_seq st) (expected_seq st) FLAG_ACK 1 []) in
           sendto ack_pkt p
       else if has_flag pkt FLAG_FIN then
         let st' := set_expected_seq st (expected_seq st + 1) in
         exec set_connection p st' in
         let* ack_pkt := lift (pack_packet (server_seq st') (expected_seq st') FLAG_ACK 1 []) in
         exec sendto ack_pkt p in
         exec sleep 200 in
         let* fin_pkt := lift (pack_packet (server_seq st') (expected_seq st') FLAG_FIN 1 []) in
         exec sendto fin_pkt p in
         del_connection p
       else hret tt
     else hret tt) s.
Proof.
  unfold has_flag. intros Hsyn Hsome. unfold _handle_packet. rewrite Hsyn.
  unfold hbind at 1. unfold find_connection. rewrite Hsome. reflexivity.
Qed.

(** C5 as stated fails: a SYN with the largest sequence number is stored in
    the table, but [pack_packet] raises on the acknowledgment [2^32] and no
    SYN|ACK is sent. *)
Lemma syn_max_sequence_counterexample :
  let pkt := mkPacket 0xffffffff 0 FLAG_SYN 1 [] in
  has_flag pkt FLAG_SYN = true /\
  _handle_packet pkt p0 77 (mkServer ∅ [])
  = (Raise StructError,
     mkServer {[ p0 := mkState 0xffffffff 77 0x100000000 false ]} []) /\
  ~ exists synack, trace (snd (_handle_packet pkt p0 77 (mkServer ∅ []))) = [SendTo synack p0].
Proof.
  assert (_handle_packet (mkPacket 0xffffffff 0 FLAG_SYN 1 []) p0 77 (mkServer ∅ [])
          = (Raise StructError,
             mkServer {[ p0 := mkState 0xffffffff 77 0x100000000 false ]} [])) as H.
  { rewrite handle_syn by reflexivity. cbn [seq connections trace].
    rewrite pack_packet_bad_ack by lia. rewrite insert_empty. reflexivity. }
  cbv zeta. split; [reflexivity | split; [exact H |]].
  rewrite H. cbn [snd trace]. intros [synack Hs]. discriminate Hs.
Qed.

(** C5, amended: for every incoming packet with the SYN flag set and a
    sequence number below [2^32 - 1], whatever the table holds for the peer,
    the handler stores for the peer the state with [peer_seq] the incoming
    sequence, [server_seq] the fresh random draw, [expected_seq] the incoming
    sequence plus one and [established] false, and sends exactly one packet:
    a SYN|ACK with [seq = server_seq] and [ack] the incoming sequence plus
    one. *)
Theorem syn_creates_connection (s : server) (pkt : Packet) (p : peer) (isn : Z) :
  has_flag pkt FLAG_SYN = true ->
  0 <= seq pkt < 0xffffffff ->
  0 <= isn <= 0x7fffffff ->
  exists synack,
    is_packet synack (mkPacket isn (seq pkt + 1) (Z.lor FLAG_SYN FLAG_ACK) 1 []) /\
    _handle_packet pkt p isn s
    = (Ret tt,
       mkServer (<[p := mkState (seq pkt) isn (seq pkt + 1) false]> (connections s))
                (trace s ++ [SendTo synack p])).
Proof.
  intros Hsyn Hseq Hisn.
  destruct (pack_packet_is_packet isn (seq pkt + 1) (Z.lor FLAG_SYN FLAG_ACK) 1 [])
    as (synack & Hpack & Hwire).
  { unfold fields_in_range. change (Z.lor FLAG_SYN FLAG_ACK) with 3. lia. }
  { unfold len. simpl. lia. }
  exists synack. split; [exact Hwire |].
  rewrite handle_syn by exact Hsyn. rewrite Hpack. reflexivity.
Qed.

Lemma syn_creates_connection_witness :
  has_flag (mkPacket 1000 0 FLAG_SYN 1 []) FLAG_SYN = true /\
  0 <= seq (mkPacket 1000 0 FLAG_SYN 1 []) < 0xffffffff /\
  0 <= 77 <= 0x7fffffff /\
  exists synack,
    is_packet synack (mkPacket 77 1001 (Z.lor FLAG_SYN FLAG_ACK) 1 []) /\
    _handle_packet (mkPacket 1000 0 FLAG_SYN 1 []) p0 77 (mkServer ∅ [])
    = (Ret tt,
       mkServer (<[p0 := mkState 1000 77 1001 false]> ∅) ([] ++ [SendTo synack p0])).
Proof.
  assert (has_flag (mkPacket 1000 0 FLAG_SYN 1 []) FLAG_SYN = true) as H1
    by reflexivity.
  assert (0 <= seq (mkPacket 1000 0 FLAG_SYN 1 []) < 0xffffffff) as H2
    by (simpl; lia).
  assert (0 <= 77 <= 0x7fffffff) as H3 by lia.
  repeat (split; [assumption |]).
  exact (syn_creates_connection (mkServer ∅ []) (mkPacket 1000 0 FLAG_SYN 1 []) p0 77
           H1 H2 H3).
Defined.

(** The handshake branch: the entry of the peer is not established. *)
Lemma handle_handshake (s : server) (pkt : Packet) (p : peer) (isn : Z) (st : state) :
  has_flag pkt FLAG_SYN = false ->
  connections s !! p = Some st ->
  established st = false ->
  _handle_packet pkt p isn s =
    if has_flag pkt FLAG_ACK && (ack pkt =? server_seq st + 1)
    then (Ret tt, mkServer (<[p := set_established st true]> (connections s)) (trace s))
    else (Ret tt, s).
Proof.
  intros Hsyn Hsome Hest.
  rewrite (handle_known_peer s pkt p isn st Hsyn Hsome), Hest.
  cbn [negb]. rewrite andb_true_r.
  destruct (has_flag pkt FLAG_ACK); cbn [andb].
  - destruct (ack pkt =? server_seq st + 1); reflexivity.
  - reflexivity.
Qed.

(** The branches for an established entry, with the outcome of each call of
    [pack_packet] spelled out. *)
Lemma handle_established (s : server) (pkt : Packet) (p : peer) (isn : Z) (st : state) :
  has_flag pkt FLAG_SYN = false ->
  connections s !! p = Some st ->
  established st = true ->
  _handle_packet pkt p isn s =
    if has_flag pkt FLAG_PSH || (0 <? len (payload pkt)) then
      if seq pkt =? expected_seq st then
        let st' := set_expected_seq st (expected_seq st + len (payload pkt)) in
        match pack_packet (server_seq st) (expected_seq st + len (payload pkt)) FLAG_ACK 1 [] with
        | Ret a =>
          (Ret tt, mkServer (<[p := st']> (connections s)) (trace s ++ [SendTo a p]))
        | Raise e => (Raise e, mkServer (<[p := st']> (connections s)) (trace s))
        end
      else
        match pack_packet (server_seq st) (expected_seq st) FLAG_ACK 1 [] with
        | Ret a => (Ret tt, mkServer (connections s) (trace s ++ [SendTo a p]))
        | Raise e => (Raise e, s)
        end
    else if has_flag pkt FLAG_FIN then
      let st' := set_expected_seq st (expected_seq st + 1) in
      match pack_packet (server_seq st) (expected_seq st + 1) FLAG_ACK 1 [] with
      | Raise e => (Raise e, mkServer (<[p := st']> (connections s)) (trace s))
      | Ret a =>
        match pack_packet (server_seq st) (expected_seq st + 1) FLAG_FIN 1 [] with
        | Raise e =>
          (Raise e, mkServer (<[p := st']> (connections s))
                             (trace s ++ [SendTo a p; Sleep 200]))
        | Ret f =>
          (Ret tt, mkServer (delete p (connections s))
                            (trace s ++ [SendTo a p; Sleep 200; SendTo f p]))
        end
      end
    else (Ret tt, s).
Proof.
  intros Hsyn Hsome Hest.
  rewrite (handle_known_peer s pkt p isn st Hsyn Hsome), Hest.
  rewrite andb_false_r.
  destruct (has_flag pkt FLAG_PSH || (0 <? len (payload pkt))).
  - destruct (seq pkt =? expected_seq st); cbv zeta.
    + unfold hbind, set_connection, lift, sendto.
      cbn [server_seq expected_seq set_expected_seq connections trace].
      destruct (pack_packet _ _ _ _ _); reflexivity.
    + unfold hbind, lift, sendto.
      destruct (pack_packet _ _ _ _ _); reflexivity.
  - destruct (has_flag pkt FLAG_FIN); [|reflexivity]. cbv zeta.
    unfold hbind, set_connection, lift, sendto, sleep, del_connection.
    cbn [server_seq expected_seq set_expected_seq connections trace].
    destruct (pack_packet _ _ FLAG_ACK _ _); [|reflexivity].
    destruct (pack_packet _ _ FLAG_FIN _ _).
    + rewrite lookup_insert_eq, delete_insert_eq, <- !app_assoc. reflexivity.
    + rewrite <- !app_assoc. reflexivity.
Qed.

(** The entry of another peer is never touched. *)
Lemma handle_other_peer (s : server) (pkt : Packet) (p q : peer) (isn : Z) :
  p <> q ->
  connections (snd (_handle_packet pkt q isn s)) !! p = connections s !! p.
Proof.
  intros Hne.
  destruct (has_flag pkt FLAG_SYN) eqn:Hsyn.
  - rewrite handle_syn by exact Hsyn.
    destruct (pack_packet _ _ _ _ _); cbn [snd connections];
      apply lookup_insert_ne; congruence.
  - destruct (connections s !! q) as [stq|] eqn:Hq.
    + destruct (established stq) eqn:Hest.
      * rewrite (handle_established s pkt q isn stq Hsyn Hq Hest). cbv zeta.
        repeat match goal with
               | |- context [if ?b then _ else _] => destruct b
               | |- context [match ?r with Ret _ => _ | Raise _ => _ end] => destruct r
               end; cbn [snd connections];
          rewrite ?lookup_insert_ne, ?lookup_delete_ne by congruence; reflexivity.
      * rewrite (handle_handshake s pkt q isn stq Hsyn Hq Hest).
        destruct (has_flag pkt FLAG_ACK && (ack pkt =? server_seq stq + 1));
          cbn [snd connections]; rewrite ?lookup_insert_ne by congruence; reflexivity.
    + rewrite handle_unknown_peer by assumption. reflexivity.
Qed.

(** One handling step never lowers [expected_seq] of an entry that is
    established before and after the step. *)
Lemma handle_expected_seq_mono (s : server) (pkt : Packet) (p q : peer) (isn : Z)
    (st st' : state) :
  connections s !! p = Some st ->
  established st = true ->
  connections (snd (_handle_packet pkt q isn s)) !! p = Some st' ->
  established st' = true ->
  expected_seq st <= expected_seq st'.
Proof.
  intros Hp Hest Hp' Hest'.
  destruct (decide (p = q)) as [<- | Hne].
  2:{ rewrite handle_other_peer in Hp' by exact Hne. rewrite Hp in Hp'.
      injection Hp' as <-. lia. }
  destruct (has_flag pkt FLAG_SYN) eqn:Hsyn.
  - rewrite handle_syn in Hp' by exact Hsyn.
    destruct (pack_packet _ _ _ _ _); cbn [snd connections] in Hp';
      rewrite lookup_insert_eq in Hp'; injection Hp' as <-; discriminate Hest'.
  - rewrite (handle_established s pkt p isn st Hsyn Hp Hest) in Hp'. cbv zeta in Hp'.
    pose proof (len_nonneg (payload pkt)) as Hlen.
    repeat match type of Hp' with
           | context [if ?b then _ else _] => destruct b
           | context [match ?r with Ret _ => _ | Raise _ => _ end] => destruct r
           end; cbn [snd connections] in Hp';
      rewrite ?lookup_insert_eq, ?lookup_delete_eq, ?Hp in Hp';
      try discriminate Hp'; injection Hp' as <-; cbn [expected_seq set_expected_seq]; lia.
Qed.

(** The state invariant is kept by every handling step. *)
Lemma handle_preserves_wf (s : server) (pkt : Packet) (q : peer) (isn : Z) :
  map_Forall (fun _ st => wf_state st) (connections s) ->
  0 <= seq pkt -> 0 <= isn <= 0x7fffffff ->
  map_Forall (fun _ st => wf_state st) (connections (snd (_handle_packet pkt q isn s))).
Proof.
  intros Hwf Hseq Hisn.
  destruct (has_flag pkt FLAG_SYN) eqn:Hsyn.
  - rewrite handle_syn by exact Hsyn.
    destruct (pack_packet _ _ _ _ _); cbn [snd connections];
      (apply map_Forall_insert_2; [|exact Hwf]);
      unfold wf_state; cbn [server_seq expected_seq]; lia.
  - destruct (connections s !! q) as [stq|] eqn:Hq.
    + pose proof (Hwf q stq Hq) as [Hs He].
      pose proof (len_nonneg (payload pkt)) as Hlen.
      destruct (established stq) eqn:Hest.
      * rewrite (handle_established s pkt q isn stq Hsyn Hq Hest). cbv zeta.
        repeat match goal with
               | |- context [if ?b then _ else _] => destruct b
               | |- context [match ?r with Ret _ => _ | Raise _ => _ end] => destruct r
               end; cbn [snd connections];
          try exact Hwf; try (apply map_Forall_delete; exact Hwf);
          (apply map_Forall_insert_2; [|exact Hwf]);
          unfold wf_state; cbn [server_seq expected_seq set_expected_seq]; lia.
      * rewrite (handle_handshake s pkt q isn stq Hsyn Hq Hest).
        destruct (has_flag pkt FLAG_ACK && (ack pkt =? server_seq stq + 1));
          cbn [snd connections]; [|exact Hwf].
        apply map_Forall_insert_2; [|exact Hwf].
        unfold wf_state; cbn [server_seq expected_seq set_established]; lia.
    + rewrite handle_unknown_peer by assumption. exact Hwf.
Qed.

Lemma reachable_wf (s : server) (p : peer) (st : state) :
  reachable s -> connections s !! p = Some st -> wf_state st.
Proof.
  intros Hreach. revert p st.
  change (map_Forall (fun _ st => wf_state st) (connections s)).
  induction Hreach as [|s pkt q isn _ IH Hseq Hisn].
  - apply map_Forall_empty.
  - apply handle_preserves_wf; assumption.
Qed.

Lemma after_syn_connection :
  connections (after_syn 1000) !! p0 = Some (mkState 1000 77 1001 false).
Proof. vm_compute. reflexivity. Qed.

Lemma after_handshake_connection :
  connections (after_handshake 1000) !! p0 = Some (mkState 1000 77 1001 true).
Proof. vm_compute. reflexivity. Qed.

Lemma after_handshake_max_connection :
  connections (after_handshake 0xfffffffe) !! p0
  = Some (mkState 0xfffffffe 77 0xffffffff true).
Proof. vm_compute. reflexivity. Qed.

Lemma wf_state_77 (a b : Z) (e : bool) : 0 <= b -> wf_state (mkState a 77 b e).
Proof. intros Hb. unfold wf_state. cbn [server_seq expected_seq]. lia. Qed.

(** C7 as stated fails: during the handshake, a packet with the ACK flag and
    the matching acknowledgment that also has the SYN flag restarts the
    handshake (and is answered) instead of establishing the connection. *)
Lemma handshake_syn_ack_counterexample :
  let pkt := mkPacket 1001 78 (Z.lor FLAG_SYN FLAG_ACK) 1 [] in
  let s' := snd (_handle_packet pkt p0 5 (after_syn 1000)) in
  connections (after_syn 1000) !! p0 = Some (mkState 1000 77 1001 false) /\
  has_flag pkt FLAG_ACK = true /\
  ack pkt = 77 + 1 /\
  connections s' !! p0 = Some (mkState 1001 5 1002 false) /\
  length (trace s') = S (length (trace (after_syn 1000))) /\
  ~ (exists st', connections s' !! p0 = Some st' /\ established st' = true).
Proof.
  cbv zeta.
  assert (connections
            (snd (_handle_packet (mkPacket 1001 78 (Z.lor FLAG_SYN FLAG_ACK) 1 []) p0 5
                    (after_syn 1000))) !! p0
          = Some (mkState 1001 5 1002 false)) as Hafter by (vm_compute; reflexivity).
  repeat split; try (vm_compute; reflexivity); try exact Hafter.
  intros (st' & Hst' & Hest'). rewrite Hafter in Hst'. injection Hst' as <-.
  discriminate Hest'.
Qed.

(** C7, amended: while the entry of a peer is not established, a packet
    without the SYN flag makes it established exactly when it has the ACK flag
    and its acknowledgment is [server_seq + 1]; then only [established]
    changes and nothing is sent.  Any other packet without the SYN flag, in
    particular an ACK with another acknowledgment, changes nothing and is not
    answered. *)
Theorem handshake_established_iff (s : server) (pkt : Packet) (p : peer) (isn : Z)
    (st : state) :
  connections s !! p = Some st ->
  established st = false ->
  has_flag pkt FLAG_SYN = false ->
  let s' := snd (_handle_packet pkt p isn s) in
  ((exists st', connections s' !! p = Some st' /\ established st' = true) <->
   (has_flag pkt FLAG_ACK = true /\ ack pkt = server_seq st + 1)) /\
  (has_flag pkt FLAG_ACK = true -> ack pkt = server_seq st + 1 ->
   _handle_packet pkt p isn s
   = (Ret tt, mkServer (<[p := set_established st true]> (connections s)) (trace s))) /\
  (~ (has_flag pkt FLAG_ACK = true /\ ack pkt = server_seq st + 1) ->
   _handle_packet pkt p isn s = (Ret tt, s)).
Proof.
  intros Hp Hest Hsyn s'. subst s'.
  rewrite (handle_handshake s pkt p isn st Hsyn Hp Hest).
  destruct (has_flag pkt FLAG_ACK) eqn:Hack; cbn [andb].
  - destruct (Z.eqb_spec (ack pkt) (server_seq st + 1)) as [E | E].
    + cbn [snd connections]. rewrite lookup_insert_eq.
      split; [|split]; [| reflexivity | intros H; exfalso; apply H; auto].
      split; [auto |]. intros _. eexists. split; reflexivity.
    + cbn [snd]. rewrite Hp.
      split; [|split]; [| contradiction | reflexivity].
      split; [|intros [_ H]; contradiction].
      intros (st' & Hst' & Hest'). injection Hst' as <-. congruence.
  - cbn [snd]. rewrite Hp.
    split; [|split]; [| discriminate | reflexivity].
    split; [|intros [H _]; discriminate H].
    intros (st' & Hst' & Hest'). injection Hst' as <-. congruence.
Qed.

Lemma handshake_established_iff_witness :
  connections (after_syn 1000) !! p0 = Some (mkState 1000 77 1001 false) /\
  established (mkState 1000 77 1001 false) = false /\
  has_flag (mkPacket 1001 78 FLAG_ACK 1 []) FLAG_SYN = false /\
  _handle_packet (mkPacket 1001 78 FLAG_ACK 1 []) p0 0 (after_syn 1000)
  = (Ret tt,
     mkServer (<[p0 := mkState 1000 77 1001 true]> (connections (after_syn 1000)))
              (trace (after_syn 1000))).
Proof.
  split; [exact after_syn_connection | split; [reflexivity | split; [reflexivity |]]].
  apply (handshake_established_iff (after_syn 1000) (mkPacket 1001 78 FLAG_ACK 1 []) p0 0
           (mkState 1000 77 1001 false) after_syn_connection eq_refl eq_refl);
    reflexivity.
Defined.

(** C10 as stated fails: on an established entry, a packet with the ACK
    flag, no payload and neither PSH nor FIN that also has the SYN flag
    replaces the entry and is answered with a SYN|ACK. *)
Lemma established_syn_ack_counterexample :
  let pkt := mkPacket 1001 78 (Z.lor FLAG_SYN FLAG_ACK) 1 [] in
  let s' := snd (_handle_packet pkt p0 5 (after_handshake 1000)) in
  connections (after_handshake 1000) !! p0 = Some (mkState 1000 77 1001 true) /\
  has_flag pkt FLAG_ACK = true /\
  has_flag pkt FLAG_PSH = false /\
  has_flag pkt FLAG_FIN = false /\
  payload pkt = [] /\
  connections s' !! p0 = Some (mkState 1001 5 1002 false) /\
  length (trace s') = S (length (trace (after_handshake 1000))) /\
  s' <> after_handshake 1000.
Proof.
  cbv zeta.
  assert (connections
            (snd (_handle_packet (mkPacket 1001 78 (Z.lor FLAG_SYN FLAG_ACK) 1 []) p0 5
                    (after_handshake 1000))) !! p0
          = Some (mkState 1001 5 1002 false)) as Hafter by (vm_compute; reflexivity).
  repeat split; try (vm_compute; reflexivity); try exact Hafter.
  intros Heq. rewrite Heq, after_handshake_connection in Hafter. discriminate Hafter.
Qed.

(** C10, amended: on an established entry, a packet with the ACK flag, no
    payload and none of the SYN, PSH and FIN flags leaves the table and every
    entry as they are and nothing is sent. *)
Theorem established_bare_ack_ignored (s : server) (pkt : Packet) (p : peer) (isn : Z)
    (st : state) :
  connections s !! p = Some st ->
  established st = true ->
  has_flag pkt FLAG_ACK = true ->
  has_flag pkt FLAG_SYN = false ->
  has_flag pkt FLAG_PSH = false ->
  has_flag pkt FLAG_FIN = false ->
  payload pkt = [] ->
  _handle_packet pkt p isn s = (Ret tt, s).
Proof.
  intros Hp Hest _ Hsyn Hpsh Hfin Hpl.
  rewrite (handle_established s pkt p isn st Hsyn Hp Hest).
  rewrite Hpsh, Hfin, Hpl. reflexivity.
Qed.

Lemma established_bare_ack_ignored_witness :
  connections (after_handshake 1000) !! p0 = Some (mkState 1000 77 1001 true) /\
  _handle_packet (mkPacket 1001 78 FLAG_ACK 1 []) p0 0 (after_handshake 1000)
  = (Ret tt, after_handshake 1000).
Proof.
  split; [exact after_handshake_connection |].
  exact (established_bare_ack_ignored (after_handshake 1000)
           (mkPacket 1001 78 FLAG_ACK 1 []) p0 0 (mkState 1000 77 1001 true)
           after_handshake_connection eq_refl eq_refl eq_refl eq_refl eq_refl eq_refl).
Defined.

(** An out-of-sequence data packet: one re-ACK, the table as it was. *)
Lemma handle_out_of_order (s : server) (pkt : Packet) (p : peer) (isn : Z)
    (st : state) (raw : bytes) :
  connections s !! p = Some st ->
  established st = true ->
  has_flag pkt FLAG_SYN = false ->
  is_data pkt = true ->
  seq pkt <> expected_seq st ->
  pack_packet (server_seq st) (expected_seq st) FLAG_ACK 1 [] = Ret raw ->
  _handle_packet pkt p isn s
  = (Ret tt, mkServer (connections s) (trace s ++ [SendTo raw p])).
Proof.
  unfold is_data. intros Hp Hest Hsyn Hdata Hseq Hpack.
  rewrite (handle_established s pkt p isn st Hsyn Hp Hest), Hdata.
  apply Z.eqb_neq in Hseq. rewrite Hseq, Hpack. reflexivity.
Qed.

Lemma handle_repeated_out_of_order (n : nat) (pkt : Packet) (p : peer) (isn : Z)
    (st : state) (raw : bytes) :
  established st = true ->
  has_flag pkt FLAG_SYN = false ->
  is_data pkt = true ->
  seq pkt <> expected_seq st ->
  pack_packet (server_seq st) (expected_seq st) FLAG_ACK 1 [] = Ret raw ->
  forall s, connections s !! p = Some st ->
  handle_repeated n pkt p isn s
  = (Ret tt, mkServer (connections s) (trace s ++ repeat (SendTo raw p) n)).
Proof.
  intros Hest Hsyn Hdata Hseq Hpack.
  induction n as [|n IH]; intros s Hp.
  - cbn [handle_repeated repeat]. rewrite app_nil_r, server_eta. reflexivity.
  - cbn [handle_repeated repeat]. unfold hbind.
    rewrite (handle_out_of_order s pkt p isn st raw) by assumption.
    rewrite IH by exact Hp. cbn [connections trace].
    rewrite <- app_assoc. reflexivity.
Qed.

(** C6 as stated fails: on an established entry, a packet with the PSH flag,
    a payload and the expected sequence number that also has the SYN flag does
    not advance [expected_seq] by the payload length; it replaces the entry. *)
Lemma data_with_syn_counterexample :
  let pkt := mkPacket 1001 78 (Z.lor FLAG_SYN FLAG_PSH) 1 [x68; x65; x6c; x6c; x6f] in
  let s' := snd (_handle_packet pkt p0 5 (after_handshake 1000)) in
  connections (after_handshake 1000) !! p0 = Some (mkState 1000 77 1001 true) /\
  is_data pkt = true /\
  seq pkt = 1001 /\
  len (payload pkt) = 5 /\
  connections s' !! p0 = Some (mkState 1001 5 1002 false) /\
  ~ (exists st', connections s' !! p0 = Some st' /\ expected_seq st' = 1001 + 5).
Proof.
  cbv zeta.
  assert (connections
            (snd (_handle_packet
                    (mkPacket 1001 78 (Z.lor FLAG_SYN FLAG_PSH) 1 [x68; x65; x6c; x6c; x6f])
                    p0 5 (after_handshake 1000))) !! p0
          = Some (mkState 1001 5 1002 false)) as Hafter by (vm_compute; reflexivity).
  repeat split; try (vm_compute; reflexivity); try exact Hafter.
  intros (st' & Hst' & Hexp). rewrite Hafter in Hst'. injection Hst' as <-.
  discriminate Hexp.
Qed.

(** The sequence space is not wrapped: a data packet that takes
    [expected_seq] past [2^32 - 1] is stored, but the ACK cannot be packed. *)
Lemma data_past_max_sequence_raises :
  let pkt := mkPacket 0xffffffff 78 FLAG_PSH 1 [x68] in
  connections (after_handshake 0xfffffffe) !! p0
  = Some (mkState 0xfffffffe 77 0xffffffff true) /\
  fst (_handle_packet pkt p0 0 (after_handshake 0xfffffffe)) = Raise StructError /\
  connections (snd (_handle_packet pkt p0 0 (after_handshake 0xfffffffe))) !! p0
  = Some (mkState 0xfffffffe 77 0x100000000 true) /\
  trace (snd (_handle_packet pkt p0 0 (after_handshake 0xfffffffe)))
  = trace (after_handshake 0xfffffffe).
Proof. vm_compute. repeat split; reflexivity. Qed.

(** C6, amended: for an established entry of a peer,
    - no handling step lowers [expected_seq] while the entry stays
      established;
    - a data packet (PSH flag or payload) without the SYN flag whose sequence
      number is [expected_seq], and that does not take [expected_seq] past
      [2^32 - 1], advances [expected_seq] by the payload length, changes
      nothing else, and is answered with one ACK that carries the new value;
    - a data packet without the SYN flag with any other sequence number (and
      [expected_seq] at most [2^32 - 1]) changes nothing in the table and is
      answered with one ACK that carries [expected_seq]; [n] repeats give [n]
      identical ACKs. *)
Theorem established_data_sequence (s : server) (p : peer) (st : state) :
  connections s !! p = Some st ->
  established st = true ->
  wf_state st ->
  (forall pkt q isn st',
     connections (snd (_handle_packet pkt q isn s)) !! p = Some st' ->
     established st' = true ->
     expected_seq st <= expected_seq st') /\
  (forall pkt isn,
     has_flag pkt FLAG_SYN = false -> is_data pkt = true ->
     seq pkt = expected_seq st ->
     expected_seq st + len (payload pkt) <= 0xffffffff ->
     exists raw,
       is_packet raw (mkPacket (server_seq st) (expected_seq st + len (payload pkt))
                               FLAG_ACK 1 []) /\
       _handle_packet pkt p isn s
       = (Ret tt,
          mkServer (<[p := set_expected_seq st (expected_seq st + len (payload pkt))]>
                      (connections s))
                   (trace s ++ [SendTo raw p]))) /\
  (forall pkt isn,
     has_flag pkt FLAG_SYN = false -> is_data pkt = true ->
     seq pkt <> expected_seq st ->
     expected_seq st <= 0xffffffff ->
     exists raw,
       is_packet raw (mkPacket (server_seq st) (expected_seq st) FLAG_ACK 1 []) /\
       forall n,
         handle_repeated n pkt p isn s
         = (Ret tt, mkServer (connections s) (trace s ++ repeat (SendTo raw p) n))).
Proof.
  intros Hp Hest [Hsrv Hexp]. split; [|split].
  - intros pkt q isn st' Hp' Hest'.
    exact (handle_expected_seq_mono s pkt p q isn st st' Hp Hest Hp' Hest').
  - intros pkt isn Hsyn Hdata Hseq Hmax.
    pose proof (len_nonneg (payload pkt)) as Hlen.
    destruct (pack_packet_is_packet (server_seq st) (expected_seq st + len (payload pkt))
                FLAG_ACK 1 []) as (raw & Hpack & Hwire).
    { unfold fields_in_range, FLAG_ACK. lia. }
    { unfold len. simpl. lia. }
    exists raw. split; [exact Hwire |].
    unfold is_data in Hdata.
    rewrite (handle_established s pkt p isn st Hsyn Hp Hest), Hdata.
    apply Z.eqb_eq in Hseq. rewrite Hseq. cbv zeta. rewrite Hpack. reflexivity.
  - intros pkt isn Hsyn Hdata Hseq Hmax.
    destruct (pack_packet_is_packet (server_seq st) (expected_seq st) FLAG_ACK 1 [])
      as (raw & Hpack & Hwire).
    { unfold fields_in_range, FLAG_ACK. lia. }
    { unfold len. simpl. lia. }
    exists raw. split; [exact Hwire |].
    intros n. apply (handle_repeated_out_of_order n pkt p isn st raw); assumption.
Qed.

Lemma established_data_sequence_witness :
  connections (after_handshake 1000) !! p0 = Some (mkState 1000 77 1001 true) /\
  wf_state (mkState 1000 77 1001 true) /\
  (exists raw,
     is_packet raw (mkPacket 77 1006 FLAG_ACK 1 []) /\
     _handle_packet (mkPacket 1001 78 FLAG_PSH 1 [x68; x65; x6c; x6c; x6f]) p0 0
       (after_handshake 1000)
     = (Ret tt,
        mkServer (<[p0 := mkState 1000 77 1006 true]> (connections (after_handshake 1000)))
                 (trace (after_handshake 1000) ++ [SendTo raw p0]))) /\
  (exists raw,
     is_packet raw (mkPacket 77 1001 FLAG_ACK 1 []) /\
     handle_repeated 3 (mkPacket 2000 78 FLAG_PSH 1 [x68; x65; x6c; x6c; x6f]) p0 0
       (after_handshake 1000)
     = (Ret tt,
        mkServer (connections (after_handshake 1000))
                 (trace (after_handshake 1000) ++ repeat (SendTo raw p0) 3))).
Proof.
  assert (wf_state (mkState 1000 77 1001 true)) as Hwf by (apply wf_state_77; lia).
  destruct (established_data_sequence (after_handshake 1000) p0
              (mkState 1000 77 1001 true) after_handshake_connection eq_refl Hwf)
    as (_ & Hin & Hout).
  split; [exact after_handshake_connection | split; [exact Hwf | split]].
  - apply (Hin (mkPacket 1001 78 FLAG_PSH 1 [x68; x65; x6c; x6c; x6f]) 0);
      [reflexivity | reflexivity | reflexivity | vm_compute; discriminate].
  - destruct (Hout (mkPacket 2000 78 FLAG_PSH 1 [x68; x65; x6c; x6c; x6f]) 0)
      as (raw & Hwire & Hrep);
      [reflexivity | reflexivity | cbn [seq expected_seq]; lia
       | cbn [expected_seq]; lia |].
    exists raw. split; [exact Hwire | exact (Hrep 3%nat)].
Defined.

(** The FIN branch when both replies can be packed. *)
Lemma handle_fin (s : server) (pkt : Packet) (p : peer) (isn : Z) (st : state) :
  connections s !! p = Some st ->
  established st = true ->
  wf_state st ->
  expected_seq st + 1 <= 0xffffffff ->
  has_flag pkt FLAG_FIN = true ->
  has_flag pkt FLAG_SYN = false ->
  has_flag pkt FLAG_PSH = false ->
  payload pkt = [] ->
  exists ack_raw fin_raw,
    is_packet ack_raw (mkPacket (server_seq st) (expected_seq st + 1) FLAG_ACK 1 []) /\
    is_packet fin_raw (mkPacket (server_seq st) (expected_seq st + 1) FLAG_FIN 1 []) /\
    _handle_packet pkt p isn s
    = (Ret tt,
       mkServer (delete p (connections s))
                (trace s ++ [SendTo ack_raw p; Sleep 200; SendTo fin_raw p])).
Proof.
  intros Hp Hest [Hsrv Hexp] Hmax Hfin Hsyn Hpsh Hpl.
  destruct (pack_packet_is_packet (server_seq st) (expected_seq st + 1) FLAG_ACK 1 [])
    as (ack_raw & Hpack_a & Hwire_a).
  { unfold fields_in_range, FLAG_ACK. lia. }
  { unfold len. simpl. lia. }
  destruct (pack_packet_is_packet (server_seq st) (expected_seq st + 1) FLAG_FIN 1 [])
    as (fin_raw & Hpack_f & Hwire_f).
  { unfold fields_in_range, FLAG_FIN. lia. }
  { unfold len. simpl. lia. }
  exists ack_raw, fin_raw. split; [exact Hwire_a | split; [exact Hwire_f |]].
  rewrite (handle_established s pkt p isn st Hsyn Hp Hest).
  rewrite Hpsh, Hfin, Hpl. cbn [orb len length Z.of_nat Z.ltb Z.compare]. cbv zeta.
  rewrite Hpack_a, Hpack_f. reflexivity.
Qed.

(** C8 as stated fails: a FIN on an established entry whose [expected_seq]
    is [2^32 - 1] raises in [pack_packet]; no ACK and no FIN are sent and the
    entry stays in the table. *)
Lemma fin_max_sequence_counterexample :
  let pkt := mkPacket 0xffffffff 78 FLAG_FIN 1 [] in
  let out := _handle_packet pkt p0 0 (after_handshake 0xfffffffe) in
  connections (after_handshake 0xfffffffe) !! p0
  = Some (mkState 0xfffffffe 77 0xffffffff true) /\
  fst out = Raise StructError /\
  trace (snd out) = trace (after_handshake 0xfffffffe) /\
  connections (snd out) !! p0 = Some (mkState 0xfffffffe 77 0x100000000 true) /\
  connections (snd out) <> delete p0 (connections (after_handshake 0xfffffffe)).
Proof.
  cbv zeta.
  assert (connections
            (snd (_handle_packet (mkPacket 0xffffffff 78 FLAG_FIN 1 []) p0 0
                    (after_handshake 0xfffffffe))) !! p0
          = Some (mkState 0xfffffffe 77 0x100000000 true)) as Hafter
    by (vm_compute; reflexivity).
  repeat split; try (vm_compute; reflexivity); try exact Hafter.
  intros Heq. rewrite Heq, lookup_delete_eq in Hafter. discriminate Hafter.
Qed.

(** A packet with the FIN flag that also carries data is handled as data. *)
Lemma fin_with_payload_is_data :
  let pkt := mkPacket 1001 78 FLAG_FIN 1 [x68] in
  let out := _handle_packet pkt p0 0 (after_handshake 1000) in
  fst out = Ret tt /\
  connections (snd out) !! p0 = Some (mkState 1000 77 1002 true).
Proof. vm_compute. repeat split; reflexivity. Qed.

(** C8, amended: a FIN (FIN flag, no SYN or PSH flag, no payload) on an
    established entry whose [expected_seq + 1] is at most [2^32 - 1] sends an
    ACK that carries [expected_seq + 1], sleeps 200 ms, sends a FIN that
    carries [server_seq] and [expected_seq + 1], and removes the entry; after
    that, every packet without the SYN flag from that peer changes nothing and
    is not answered. *)
Theorem fin_closes_connection (s : server) (pkt : Packet) (p : peer) (isn : Z) (st : state) :
  connections s !! p = Some st ->
  established st = true ->
  wf_state st ->
  expected_seq st + 1 <= 0xffffffff ->
  has_flag pkt FLAG_FIN = true ->
  has_flag pkt FLAG_SYN = false ->
  has_flag pkt FLAG_PSH = false ->
  payload pkt = [] ->
  exists ack_raw fin_raw,
    is_packet ack_raw (mkPacket (server_seq st) (expected_seq st + 1) FLAG_ACK 1 []) /\
    is_packet fin_raw (mkPacket (server_seq st) (expected_seq st + 1) FLAG_FIN 1 []) /\
    let s' := mkServer (delete p (connections s))
                (trace s ++ [SendTo ack_raw p; Sleep 200; SendTo fin_raw p]) in
    _handle_packet pkt p isn s = (Ret tt, s') /\
    connections s' !! p = None /\
    forall pkt' isn',
      has_flag pkt' FLAG_SYN = false -> _handle_packet pkt' p isn' s' = (Ret tt, s').
Proof.
  intros Hp Hest Hwf Hmax Hfin Hsyn Hpsh Hpl.
  destruct (handle_fin s pkt p isn st Hp Hest Hwf Hmax Hfin Hsyn Hpsh Hpl)
    as (ack_raw & fin_raw & Hwire_a & Hwire_f & Hrun).
  exists ack_raw, fin_raw. split; [exact Hwire_a | split; [exact Hwire_f |]].
  cbv zeta. split; [exact Hrun | split].
  - cbn [connections]. apply lookup_delete_eq.
  - intros pkt' isn' Hsyn'. apply handle_unknown_peer; [exact Hsyn' |].
    cbn [connections]. apply lookup_delete_eq.
Qed.

Lemma fin_closes_connection_witness :
  connections (after_handshake 1000) !! p0 = Some (mkState 1000 77 1001 true) /\
  wf_state (mkState 1000 77 1001 true) /\
  exists ack_raw fin_raw,
    is_packet ack_raw (mkPacket 77 1002 FLAG_ACK 1 []) /\
    is_packet fin_raw (mkPacket 77 1002 FLAG_FIN 1 []) /\
    _handle_packet (mkPacket 1001 78 FLAG_FIN 1 []) p0 0 (after_handshake 1000)
    = (Ret tt,
       mkServer (delete p0 (connections (after_handshake 1000)))
                (trace (after_handshake 1000)
                 ++ [SendTo ack_raw p0; Sleep 200; SendTo fin_raw p0])).
Proof.
  assert (wf_state (mkState 1000 77 1001 true)) as Hwf by (apply wf_state_77; lia).
  split; [exact after_handshake_connection | split; [exact Hwf |]].
  destruct (fin_closes_connection (after_handshake 1000) (mkPacket 1001 78 FLAG_FIN 1 []) p0 0
              (mkState 1000 77 1001 true) after_handshake_connection eq_refl Hwf)
    as (ack_raw & fin_raw & Hwire_a & Hwire_f & Hrun & _);
    [cbn [expected_seq]; lia | reflexivity | reflexivity | reflexivity | reflexivity |].
  exists ack_raw, fin_raw. split; [exact Hwire_a | split; [exact Hwire_f | exact Hrun]].
Defined.

(** C9 as stated fails: on an established entry, a packet with the FIN flag,
    no payload and no PSH flag that also has the SYN flag is not a teardown:
    the entry is replaced, not removed, and the one reply is a SYN|ACK. *)
Lemma fin_with_syn_counterexample :
  let pkt := mkPacket 1001 78 (Z.lor FLAG_SYN FLAG_FIN) 1 [] in
  let s' := snd (_handle_packet pkt p0 5 (after_handshake 1000)) in
  connections (after_handshake 1000) !! p0 = Some (mkState 1000 77 1001 true) /\
  has_flag pkt FLAG_FIN = true /\
  has_flag pkt FLAG_PSH = false /\
  payload pkt = [] /\
  connections s' !! p0 = Some (mkState 1001 5 1002 false) /\
  length (trace s') = S (length (trace (after_handshake 1000))) /\
  connections s' <> delete p0 (connections (after_handshake 1000)).
Proof.
  cbv zeta.
  assert (connections
            (snd (_handle_packet (mkPacket 1001 78 (Z.lor FLAG_SYN FLAG_FIN) 1 []) p0 5
                    (after_handshake 1000))) !! p0
          = Some (mkState 1001 5 1002 false)) as Hafter by (vm_compute; reflexivity).
  repeat split; try (vm_compute; reflexivity); try exact Hafter.
  intros Heq. rewrite Heq, lookup_delete_eq in Hafter. discriminate Hafter.
Qed.

(** C9, amended: the teardown does not look at the sequence number of the
    FIN.  For an established entry whose [expected_seq + 1] is at most
    [2^32 - 1] and a packet with the FIN flag, no SYN or PSH flag and no
    payload, the teardown of C8 (ACK and FIN that carry [expected_seq + 1],
    the sleep in between, removal of the entry) is the outcome for every
    sequence number put in the packet, equal to [expected_seq] or not. *)
Theorem fin_teardown_ignores_sequence (s : server) (pkt : Packet) (p : peer) (isn : Z)
    (st : state) :
  connections s !! p = Some st ->
  established st = true ->
  wf_state st ->
  expected_seq st + 1 <= 0xffffffff ->
  has_flag pkt FLAG_FIN = true ->
  has_flag pkt FLAG_SYN = false ->
  has_flag pkt FLAG_PSH = false ->
  payload pkt = [] ->
  exists ack_raw fin_raw,
    is_packet ack_raw (mkPacket (server_seq st) (expected_seq st + 1) FLAG_ACK 1 []) /\
    is_packet fin_raw (mkPacket (server_seq st) (expected_seq st + 1) FLAG_FIN 1 []) /\
    forall sq,
      _handle_packet (mkPacket sq (ack pkt) (flags pkt) (wnd pkt) (payload pkt)) p isn s
      = (Ret tt,
         mkServer (delete p (connections s))
                  (trace s ++ [SendTo ack_raw p; Sleep 200; SendTo fin_raw p])).
Proof.
  intros Hp Hest Hwf Hmax Hfin Hsyn Hpsh Hpl.
  destruct (handle_fin s pkt p isn st Hp Hest Hwf Hmax Hfin Hsyn Hpsh Hpl)
    as (ack_raw & fin_raw & Hwire_a & Hwire_f & Hrun).
  exists ack_raw, fin_raw. split; [exact Hwire_a | split; [exact Hwire_f |]].
  intros sq.
  destruct (handle_fin s (mkPacket sq (ack pkt) (flags pkt) (wnd pkt) (payload pkt))
              p isn st Hp Hest Hwf Hmax Hfin Hsyn Hpsh Hpl)
    as (ack_raw' & fin_raw' & [Hpa _] & [Hpf _] & Hrun').
  destruct Hwire_a as [Hpa0 _]. destruct Hwire_f as [Hpf0 _].
  cbn [seq ack flags wnd payload] in Hpa, Hpf, Hpa0, Hpf0.
  rewrite Hpa0 in Hpa. rewrite Hpf0 in Hpf.
  injection Hpa as <-. injection Hpf as <-. exact Hrun'.
Qed.

Lemma fin_teardown_ignores_sequence_witness :
  connections (after_handshake 1000) !! p0 = Some (mkState 1000 77 1001 true) /\
  wf_state (mkState 1000 77 1001 true) /\
  exists ack_raw fin_raw,
    is_packet ack_raw (mkPacket 77 1002 FLAG_ACK 1 []) /\
    is_packet fin_raw (mkPacket 77 1002 FLAG_FIN 1 []) /\
    _handle_packet (mkPacket 4242 78 FLAG_FIN 1 []) p0 0 (after_handshake 1000)
    = (Ret tt,
       mkServer (delete p0 (connections (after_handshake 1000)))
                (trace (after_handshake 1000)
                 ++ [SendTo ack_raw p0; Sleep 200; SendTo fin_raw p0])).
Proof.
  assert (wf_state (mkState 1000 77 1001 true)) as Hwf by (apply wf_state_77; lia).
  split; [exact after_handshake_connection | split; [exact Hwf |]].
  destruct (fin_teardown_ignores_sequence (after_handshake 1000)
              (mkPacket 1001 78 FLAG_FIN 1 []) p0 0
              (mkState 1000 77 1001 true) after_handshake_connection eq_refl Hwf)
    as (ack_raw & fin_raw & Hwire_a & Hwire_f & Hrun);
    [cbn [expected_seq]; lia | reflexivity | reflexivity | reflexivity | reflexivity |].
  exists ack_raw, fin_raw.
  split; [exact Hwire_a | split; [exact Hwire_f | exact (Hrun 4242)]].
Defined.

(** ** The client's retry loop *)

Lemma flags_ok_rejected (ef : option Z) (r : Packet) :
  flags_rejected ef r = negb (flags_ok ef r).
Proof.
  destruct ef as [m|]; [|reflexivity]. unfold flags_rejected, flags_ok, truthy.
  destruct (m =? 0); [reflexivity |]. cbn [negb andb orb]. reflexivity.
Qed.

Lemma ack_ok_rejected (ea : option Z) (r : Packet) :
  ack_rejected ea r = negb (ack_ok ea r).
Proof. destruct ea; reflexivity. Qed.

(** The loop always comes to an end within [MAX_RETRIES] iterations. *)
Lemma send_and_wait_loop_total (pkt : bytes) (ef ea : option Z) (fuel : nat) :
  forall attempts sock,
    (Z.to_nat (MAX_RETRIES - attempts) <= fuel)%nat ->
    exists out, send_and_wait_loop fuel attempts sock pkt ef ea = Some out.
Proof.
  unfold MAX_RETRIES.
  induction fuel as [|fuel IH]; intros attempts sock Hfuel.
  - cbn [send_and_wait_loop]. unfold MAX_RETRIES.
    destruct (Z.ltb_spec attempts 5); [lia | eauto].
  - cbn [send_and_wait_loop]. unfold MAX_RETRIES.
    destruct (Z.ltb_spec attempts 5); [|eauto].
    assert (forall sock', exists out,
              send_and_wait_loop fuel (attempts + 1) sock' pkt ef ea = Some out) as Hnext
      by (intros sock'; apply IH; lia).
    destruct (sock_recvfrom (sock_sendto pkt sock)) as [[raw|] sock']; [|apply Hnext].
    destruct (unpack_packet raw) as [[r|]|e]; [| apply Hnext | eauto].
    destruct (flags_rejected ef r); [apply Hnext |].
    destruct (ack_rejected ea r); [apply Hnext | eauto].
Qed.

Lemma send_and_wait_total (sock : socket) (pkt : bytes) (ef ea : option Z) :
  exists out, send_and_wait sock pkt ef ea = Some out.
Proof. apply send_and_wait_loop_total. unfold MAX_RETRIES. lia. Qed.

Lemma inbox_after_recvfrom (pkt : bytes) (sock : socket) :
  inbox (snd (sock_recvfrom (sock_sendto pkt sock))) = tl (inbox sock) /\
  (fst (sock_recvfrom (sock_sendto pkt sock)) = hd Timeout (inbox sock)).
Proof.
  unfold sock_recvfrom, sock_sendto. cbn [inbox outbox].
  destruct (inbox sock); split; reflexivity.
Qed.

(** As long as no received datagram makes [unpack_packet] raise, the loop
    is the retry discipline of the specification. *)
Lemma send_and_wait_loop_spec (pkt : bytes) (ef ea : option Z) (fuel : nat) :
  forall attempts sock,
    0 <= attempts <= MAX_RETRIES ->
    (Z.to_nat (MAX_RETRIES - attempts) <= fuel)%nat ->
    forallb decodes (firstn (Z.to_nat (MAX_RETRIES - attempts)) (inbox sock)) = true ->
    send_and_wait_loop fuel attempts sock pkt ef ea
    = Some (let (r, sock') :=
              attempts_spec (Z.to_nat (MAX_RETRIES - attempts)) sock pkt ef ea in
            (Ret r, sock')).
Proof.
  unfold MAX_RETRIES.
  induction fuel as [|fuel IH]; intros attempts sock Hatt Hfuel Hdec.
  - cbn [send_and_wait_loop]. unfold MAX_RETRIES.
    destruct (Z.ltb_spec attempts 5); [lia |].
    replace (Z.to_nat (5 - attempts)) with 0%nat by lia. reflexivity.
  - cbn [send_and_wait_loop]. unfold MAX_RETRIES.
    destruct (Z.ltb_spec attempts 5) as [Hlt | Hge].
    2:{ replace (Z.to_nat (5 - attempts)) with 0%nat by lia. reflexivity. }
    replace (Z.to_nat (5 - attempts)) with (S (Z.to_nat (5 - (attempts + 1)))) in *
      by lia.
    cbn [attempts_spec].
    destruct (inbox_after_recvfrom pkt sock) as [Hin Hgot].
    destruct (sock_recvfrom (sock_sendto pkt sock)) as [got sock'].
    cbn [fst snd] in Hin, Hgot.
    assert (decodes got = true /\
            forallb decodes (firstn (Z.to_nat (5 - (attempts + 1))) (inbox sock')) = true)
      as [Hd Hrest].
    { rewrite Hin, Hgot. destruct (inbox sock) as [|g rest].
      - split; [reflexivity |]. cbn [tl]. rewrite firstn_nil. reflexivity.
      - cbn [firstn forallb hd tl] in *. apply andb_true_iff in Hdec. exact Hdec. }
    assert (send_and_wait_loop fuel (attempts + 1) sock' pkt ef ea
            = Some (let (r, sock'') :=
                      attempts_spec (Z.to_nat (5 - (attempts + 1))) sock' pkt ef ea in
                    (Ret r, sock''))) as Hnext
      by (apply IH; [lia | lia | exact Hrest]).
    destruct got as [raw|]; cbn [accepted]; [|exact Hnext].
    cbn [decodes] in Hd.
    destruct (unpack_packet raw) as [[r|]|e]; [| exact Hnext | discriminate Hd].
    rewrite flags_ok_rejected, ack_ok_rejected.
    destruct (flags_ok ef r); cbn [negb andb]; [|exact Hnext].
    destruct (ack_ok ea r); cbn [negb]; [reflexivity | exact Hnext].
Qed.

Lemma send_and_wait_spec (sock : socket) (pkt : bytes) (ef ea : option Z) :
  forallb decodes (firstn 5 (inbox sock)) = true ->
  send_and_wait sock pkt ef ea
  = Some (let (r, sock') := attempts_spec 5 sock pkt ef ea in (Ret r, sock')).
Proof.
  intros Hdec.
  apply (send_and_wait_loop_spec pkt ef ea (Z.to_nat MAX_RETRIES) 0 sock);
    unfold MAX_RETRIES; [lia | lia | exact Hdec].
Qed.

(** C4 fails on the code: a received datagram of 15 bytes or more that is
    shorter than its header announces is not rejected at the cost of one
    attempt.  [unpack_packet] raises [struct.error] on it, [send_and_wait]
    catches [socket.timeout] only, and the call ends with that exception after
    one send, neither with a packet nor with [None]. *)
Theorem send_and_wait_truncated_datagram_raises
    (pkt : bytes) (ef ea : option Z) (later : list recv) (sent : list bytes) :
  send_and_wait (mkSocket (Datagram truncated_datagram :: later) sent) pkt ef ea
  = Some (Raise StructError, mkSocket later (sent ++ [pkt])).
Proof. reflexivity. Qed.

(** * Further properties of the codec *)

Lemma pack_uint_cases (n : nat) (v : Z) :
  (0 <= v < 2 ^ (8 * Z.of_nat n) /\ pack_uint n v = Ret (to_be n v)) \/
  (~ 0 <= v < 2 ^ (8 * Z.of_nat n) /\ pack_uint n v = Raise StructError).
Proof.
  destruct (Z_le_dec 0 v) as [Hlo | Hlo];
    [destruct (Z_lt_dec v (2 ^ (8 * Z.of_nat n))) as [Hhi | Hhi] |].
  - left. split; [lia | apply pack_uint_ok; lia].
  - right. split; [lia | apply pack_uint_out_of_range; lia].
  - right. split; [lia | apply pack_uint_out_of_range; lia].
Qed.

Lemma pack_packet_out_of_range (sq ak fl wn : Z) (pl : bytes) :
  ~ (fields_in_range sq ak fl wn /\ len pl <= 65535) ->
  pack_packet sq ak fl wn pl = Raise StructError.
Proof.
  intros Hbad. unfold pack_packet, pack_hdr.
  pose proof (len_nonneg pl) as Hlen.
  destruct (pack_uint_cases 4 sq) as [[Hs ->] | [_ ->]]; [|reflexivity].
  destruct (pack_uint_cases 4 ak) as [[Ha ->] | [_ ->]]; [|reflexivity].
  destruct (pack_uint_cases 1 fl) as [[Hf ->] | [_ ->]]; [|reflexivity].
  destruct (pack_uint_cases 2 wn) as [[Hw ->] | [_ ->]]; [|reflexivity].
  destruct (pack_uint_cases 2 (len pl)) as [[Hn ->] | [_ ->]]; [|reflexivity].
  exfalso. apply Hbad. unfold fields_in_range.
  change (2 ^ (8 * Z.of_nat 4)) with 4294967296 in *.
  change (2 ^ (8 * Z.of_nat 1)) with 256 in *.
  change (2 ^ (8 * Z.of_nat 2)) with 65536 in *. lia.
Qed.

Lemma fields_in_range_dec (sq ak fl wn n : Z) :
  (fields_in_range sq ak fl wn /\ n <= 65535) \/
  ~ (fields_in_range sq ak fl wn /\ n <= 65535).
Proof. unfold fields_in_range. lia. Qed.

(** X1: [pack_packet] returns a byte string exactly when the four fields are
    in their ranges (u32, u32, u8, u16) and the payload has at most 65535
    bytes; it raises [struct.error] in every other case, and a byte string it
    returns is 15 bytes longer than the payload. *)
Theorem pack_packet_outcome (sq ak fl wn : Z) (pl : bytes) :
  ((exists raw, pack_packet sq ak fl wn pl = Ret raw /\ len raw = 15 + len pl) <->
   (fields_in_range sq ak fl wn /\ len pl <= 65535)) /\
  (pack_packet sq ak fl wn pl = Raise StructError <->
   ~ (fields_in_range sq ak fl wn /\ len pl <= 65535)).
Proof.
  destruct (fields_in_range_dec sq ak fl wn (len pl)) as [[Hf Hn] | Hbad].
  - rewrite pack_packet_ok by assumption. split; split.
    + intros _. split; assumption.
    + intros _. eexists. split; [reflexivity |].
      rewrite !len_app, len_hdr_bytes, len_to_be. simpl. lia.
    + discriminate.
    + intros H. exfalso. apply H. split; assumption.
  - rewrite pack_packet_out_of_range by exact Hbad. split; split.
    + intros (raw & H & _). discriminate H.
    + intros H. contradiction.
    + intros _. exact Hbad.
    + reflexivity.
Qed.

(** X2: [unpack_packet] raises exactly on a datagram of at least 15 bytes
    that is shorter than the 13 header bytes, the payload length its header
    announces and the 2 checksum bytes; the exception is [struct.error]. *)
Theorem unpack_packet_raises_iff (raw : bytes) (e : exn) :
  unpack_packet raw = Raise e <->
  e = StructError /\ 15 <= len raw < 13 + payload_len_field raw + 2.
Proof.
  destruct (Z.lt_ge_cases (len raw) 15) as [Hshort | Hlong].
  - rewrite unpack_packet_short by exact Hshort.
    split; [discriminate | lia].
  - rewrite unpack_packet_unfold by exact Hlong. cbv zeta.
    destruct (Z.ltb_spec (len raw) (13 + payload_len_field raw + 2)) as [Hlt | Hge].
    + split.
      * intros H. injection H as <-. split; [reflexivity | lia].
      * intros [-> _]. reflexivity.
    + destruct (checksum _ =? from_be _); split; try discriminate; lia.
Qed.

Lemma slice_app_l {A : Type} (a b : Z) (l extra : list A) :
  0 <= a -> b <= len l -> slice a b (l ++ extra) = slice a b l.
Proof.
  unfold slice, len. intros Ha Hb.
  destruct (Z.le_gt_cases a b) as [Hab | Hab].
  - rewrite skipn_app, take_app_le; [reflexivity |].
    rewrite length_drop. lia.
  - replace (Z.to_nat (b - a)) with 0%nat by lia. reflexivity.
Qed.

(** X3: bytes after the checksum are ignored: on a datagram that holds its
    header, the announced payload and the two checksum bytes, [unpack_packet]
    gives the same result whatever is appended. *)
Theorem unpack_packet_ignores_trailing (raw extra : bytes) :
  15 <= len raw ->
  13 + payload_len_field raw + 2 <= len raw ->
  unpack_packet (raw ++ extra) = unpack_packet raw.
Proof.
  intros Hlen Hfull.
  assert (0 <= payload_len_field raw) as Hn by apply from_be_range.
  assert (payload_len_field (raw ++ extra) = payload_len_field raw) as Hfield
    by (unfold payload_len_field; rewrite slice_app_l by lia; reflexivity).
  pose proof (len_nonneg extra) as Hextra.
  rewrite (unpack_packet_unfold (raw ++ extra)) by (rewrite len_app; lia).
  rewrite (unpack_packet_unfold raw) by exact Hlen.
  cbv zeta. unfold decoded. rewrite Hfield, len_app.
  rewrite !slice_app_l by lia.
  replace (len raw + len extra <? 13 + payload_len_field raw + 2) with false
    by (symmetry; apply Z.ltb_ge; lia).
  replace (len raw <? 13 + payload_len_field raw + 2) with false
    by (symmetry; apply Z.ltb_ge; lia).
  reflexivity.
Qed.

Lemma unpack_packet_ignores_trailing_witness :
  15 <= len overlong_datagram /\
  13 + payload_len_field overlong_datagram + 2 <= len overlong_datagram /\
  unpack_packet (overlong_datagram ++ [x2a; x2a]) = unpack_packet overlong_datagram.
Proof.
  assert (15 <= len overlong_datagram) as H1 by (vm_compute; discriminate).
  assert (13 + payload_len_field overlong_datagram + 2 <= len overlong_datagram) as H2
    by (vm_compute; discriminate).
  split; [exact H1 | split; [exact H2 |]].
  exact (unpack_packet_ignores_trailing overlong_datagram [x2a; x2a] H1 H2).
Defined.

Lemma unpack_packet_Some (raw : bytes) (p : Packet) :
  unpack_packet raw = Ret (Some p) ->
  p = decoded raw /\
  15 <= len raw /\
  13 + payload_len_field raw + 2 <= len raw /\
  checksum (slice 0 (13 + payload_len_field raw) raw)
  = from_be (slice (13 + payload_len_field raw) (13 + payload_len_field raw + 2) raw).
Proof.
  intros H.
  destruct (Z.lt_ge_cases (len raw) 15) as [Hshort | Hlong].
  { rewrite unpack_packet_short in H by exact Hshort. discriminate H. }
  rewrite unpack_packet_unfold in H by exact Hlong. cbv zeta in H.
  destruct (Z.ltb_spec (len raw) (13 + payload_len_field raw + 2)) as [Hlt | Hge];
    [discriminate H |].
  destruct (Z.eqb_spec (checksum (slice 0 (13 + payload_len_field raw) raw))
              (from_be (slice (13 + payload_len_field raw)
                              (13 + payload_len_field raw + 2) raw))) as [E | E];
    [|discriminate H].
  injection H as <-. auto.
Qed.

Lemma from_be_slice_range (a b : Z) (raw : bytes) :
  0 <= a -> a <= b -> b <= len raw ->
  0 <= from_be (slice a b raw) < 256 ^ (b - a).
Proof.
  intros Ha Hab Hb. pose proof (from_be_range (slice a b raw)) as H.
  rewrite len_slice in H by assumption. exact H.
Qed.

Lemma decoded_in_range (raw : bytes) :
  13 <= len raw ->
  fields_in_range (seq (decoded raw)) (ack (decoded raw)) (flags (decoded raw))
                  (wnd (decoded raw)) /\
  0 <= payload_len_field raw <= 65535.
Proof.
  intros Hlen. unfold decoded, fields_in_range, payload_len_field.
  cbn [seq ack flags wnd].
  pose proof (from_be_slice_range 0 4 raw ltac:(lia) ltac:(lia) ltac:(lia)) as H1.
  pose proof (from_be_slice_range 4 8 raw ltac:(lia) ltac:(lia) ltac:(lia)) as H2.
  pose proof (from_be_slice_range 8 9 raw ltac:(lia) ltac:(lia) ltac:(lia)) as H3.
  pose proof (from_be_slice_range 9 11 raw ltac:(lia) ltac:(lia) ltac:(lia)) as H4.
  pose proof (from_be_slice_range 11 13 raw ltac:(lia) ltac:(lia) ltac:(lia)) as H5.
  change (256 ^ (4 - 0)) with 4294967296 in H1.
  change (256 ^ (8 - 4)) with 4294967296 in H2.
  change (256 ^ (9 - 8)) with 256 in H3.
  change (256 ^ (11 - 9)) with 65536 in H4.
  change (256 ^ (13 - 11)) with 65536 in H5. lia.
Qed.

(** X4: a packet that [unpack_packet] returns has its sequence and
    acknowledgment in u32, its flags in u8 and its window in u16, and its
    payload has exactly the length that the header announces, at most 65535
    bytes, all of them present in the datagram. *)
Theorem unpack_packet_fields_in_range (raw : bytes) (p : Packet) :
  unpack_packet raw = Ret (Some p) ->
  fields_in_range (seq p) (ack p) (flags p) (wnd p) /\
  len (payload p) = payload_len_field raw /\
  len (payload p) <= 65535 /\
  15 + len (payload p) <= len raw.
Proof.
  intros H. destruct (unpack_packet_Some raw p H) as (-> & Hlen & Hfull & _).
  destruct (decoded_in_range raw ltac:(lia)) as [Hf Hn].
  split; [exact Hf |].
  assert (len (payload (decoded raw)) = payload_len_field raw) as Hp.
  { unfold decoded. cbn [payload]. rewrite len_slice by lia. lia. }
  rewrite Hp. lia.
Qed.

Lemma unpack_packet_fields_in_range_witness :
  unpack_packet overlong_datagram = Ret (Some (mkPacket 0 0 0 0 [])) /\
  fields_in_range 0 0 0 0 /\
  len (@nil byte) = payload_len_field overlong_datagram /\
  len (@nil byte) <= 65535 /\
  15 + len (@nil byte) <= len overlong_datagram.
Proof.
  assert (unpack_packet overlong_datagram = Ret (Some (mkPacket 0 0 0 0 []))) as H
    by reflexivity.
  split; [exact H |].
  exact (unpack_packet_fields_in_range overlong_datagram (mkPacket 0 0 0 0 []) H).
Defined.

Lemma byte_val_inj (b1 b2 : byte) : byte_val b1 = byte_val b2 -> b1 = b2.
Proof.
  intros H. rewrite <- (byte_of_val b1), <- (byte_of_val b2), H. reflexivity.
Qed.

Lemma from_be_inj (bs1 : bytes) :
  forall bs2, length bs1 = length bs2 -> from_be bs1 = from_be bs2 -> bs1 = bs2.
Proof.
  induction bs1 as [|b1 bs1 IH]; intros [|b2 bs2] Hlen Heq;
    try discriminate Hlen; [reflexivity |].
  injection Hlen as Hlen. rewrite !from_be_cons in Heq.
  assert (len bs1 = len bs2) as Hl by (unfold len; lia). rewrite Hl in Heq.
  pose proof (from_be_range bs1) as R1. pose proof (from_be_range bs2) as R2.
  rewrite Hl in R1.
  pose proof (byte_val_range b1). pose proof (byte_val_range b2).
  assert (byte_val b1 = byte_val b2 /\ from_be bs1 = from_be bs2) as [Hb Hr].
  { apply (Z.div_mod_unique (256 ^ len bs2)); [left; exact R1 | left; exact R2 | lia]. }
  f_equal; [apply byte_val_inj; exact Hb | apply IH; assumption].
Qed.

Lemma to_be_from_be (n : nat) (bs : bytes) :
  length bs = n -> to_be n (from_be bs) = bs.
Proof.
  intros Hlen. apply from_be_inj; [rewrite length_to_be; lia |].
  rewrite from_be_to_be_mod. apply Z.mod_small.
  pose proof (from_be_range bs) as R. unfold len in R. rewrite Hlen in R.
  rewrite Z.pow_mul_r by lia. exact R.
Qed.

Lemma slice_adjacent {A : Type} (a b c : Z) (l : list A) :
  0 <= a -> a <= b -> b <= c -> slice a b l ++ slice b c l = slice a c l.
Proof.
  intros Ha Hab Hbc. unfold slice.
  replace (Z.to_nat b) with (Z.to_nat a + Z.to_nat (b - a))%nat by lia.
  rewrite <- drop_drop, take_take_drop. f_equal. lia.
Qed.

Lemma hdr_bytes_decoded (raw : bytes) :
  13 <= len raw ->
  hdr_bytes (seq (decoded raw)) (ack (decoded raw)) (flags (decoded raw))
            (wnd (decoded raw)) (payload_len_field raw)
  = slice 0 13 raw.
Proof.
  intros Hlen. unfold hdr_bytes, decoded, payload_len_field. cbn [seq ack flags wnd].
  assert (forall a b, 0 <= a -> a <= b -> b <= 13 ->
            length (slice a b raw) = Z.to_nat (b - a)) as Hl.
  { intros a b Ha Hab Hb. rewrite length_slice. unfold len in Hlen. lia. }
  rewrite (to_be_from_be 4 (slice 0 4 raw)) by (rewrite Hl; lia).
  rewrite (to_be_from_be 4 (slice 4 8 raw)) by (rewrite Hl; lia).
  rewrite (to_be_from_be 1 (slice 8 9 raw)) by (rewrite Hl; lia).
  rewrite (to_be_from_be 2 (slice 9 11 raw)) by (rewrite Hl; lia).
  rewrite (to_be_from_be 2 (slice 11 13 raw)) by (rewrite Hl; lia).
  rewrite (slice_adjacent 9 11 13), (slice_adjacent 8 9 13),
    (slice_adjacent 4 8 13), (slice_adjacent 0 4 13) by lia.
  reflexivity.
Qed.

(** X5: decoding then encoding gives the datagram back, without what
    followed its checksum: when [unpack_packet raw] returns a packet,
    [pack_packet] of its five fields returns the first [15 + len payload]
    bytes of [raw]. *)
Theorem pack_unpack_roundtrip (raw : bytes) (p : Packet) :
  unpack_packet raw = Ret (Some p) ->
  pack_packet (seq p) (ack p) (flags p) (wnd p) (payload p)
  = Ret (slice 0 (15 + len (payload p)) raw).
Proof.
  intros H. destruct (unpack_packet_Some raw p H) as (-> & Hlen & Hfull & Hck).
  destruct (decoded_in_range raw ltac:(lia)) as [Hf Hn].
  set (n := payload_len_field raw) in *.
  assert (payload (decoded raw) = slice 13 (13 + n) raw) as Hp by reflexivity.
  assert (len (payload (decoded raw)) = n) as Hpl
    by (rewrite Hp, len_slice by lia; lia).
  rewrite pack_packet_ok by (auto; lia).
  rewrite Hpl. subst n. rewrite hdr_bytes_decoded by lia.
  set (n := payload_len_field raw) in *.
  rewrite Hp, (slice_adjacent 0 13 (13 + n)) by lia.
  rewrite Hck, (to_be_from_be 2)
    by (rewrite length_slice; unfold len in Hfull; lia).
  rewrite (slice_adjacent 0 (13 + n) (13 + n + 2)) by lia.
  do 2 f_equal. lia.
Qed.

Lemma pack_unpack_roundtrip_witness :
  unpack_packet overlong_datagram = Ret (Some (mkPacket 0 0 0 0 [])) /\
  pack_packet 0 0 0 0 [] = Ret (slice 0 (15 + len (@nil byte)) overlong_datagram).
Proof.
  assert (unpack_packet overlong_datagram = Ret (Some (mkPacket 0 0 0 0 []))) as H
    by reflexivity.
  split; [exact H |].
  exact (pack_unpack_roundtrip overlong_datagram (mkPacket 0 0 0 0 []) H).
Defined.

Lemma sum_words_weighted (data : bytes) :
  sum_words (words16 data) = weighted_sum true data.
Proof.
  induction data as [| b | b0 b1 rest IH] using bytes_pair_ind.
  - reflexivity.
  - cbn. lia.
  - cbn [words16 sum_words fold_right weighted_sum negb].
    unfold sum_words in IH. rewrite IH. lia.
Qed.

Lemma weighted_sum_one_byte (pre post : bytes) :
  forall high, exists w c,
    (w = 1 \/ w = 256) /\
    forall b, weighted_sum high (pre ++ b :: post) = c + w * byte_val b.
Proof.
  induction pre as [|a pre IH]; intros high.
  - exists (if high then 256 else 1), (weighted_sum (negb high) post).
    split; [destruct high; auto |]. intros b. cbn [app weighted_sum]. lia.
  - destruct (IH (negb high)) as (w & c & Hw & Hsum).
    exists w, ((if high then 256 else 1) * byte_val a + c).
    split; [exact Hw |]. intros b. cbn [app weighted_sum]. rewrite Hsum. lia.
Qed.

Lemma checksum_residue (data : bytes) :
  exists r, residue (weighted_sum true data) r /\ checksum data = 65535 - r.
Proof.
  exists (checksum_loop 0 data). split.
  - pose proof (checksum_loop_residue data 0 ltac:(lia)) as H.
    rewrite Z.add_0_l, sum_words_weighted in H. exact H.
  - unfold checksum. apply lnot_land_ffff. apply checksum_loop_range.
Qed.

Lemma checksum_detects_byte_change (pre post : bytes) (b b' : byte) :
  b <> b' ->
  checksum (pre ++ b :: post) <> checksum (pre ++ b' :: post).
Proof.
  intros Hne Heq.
  destruct (weighted_sum_one_byte pre post true) as (w & c & Hw & Hsum).
  destruct (checksum_residue (pre ++ b :: post))
    as (r1 & (Hr1 & (k1 & Hk1 & Hx1) & _) & Hc1).
  destruct (checksum_residue (pre ++ b' :: post))
    as (r2 & (Hr2 & (k2 & Hk2 & Hx2) & _) & Hc2).
  rewrite Hsum in Hx1, Hx2.
  assert (byte_val b <> byte_val b') as Hv
    by (intros Hv; apply Hne, byte_val_inj, Hv).
  pose proof (byte_val_range b). pose proof (byte_val_range b').
  destruct Hw as [-> | ->]; lia.
Qed.

(** X6: the checksum tells apart any two byte strings that differ in exactly
    one byte. *)
Theorem checksum_detects_one_byte (pre post : bytes) (b b' : byte) :
  b <> b' ->
  checksum (pre ++ b :: post) <> checksum (pre ++ b' :: post).
Proof. apply checksum_detects_byte_change. Qed.

Lemma checksum_detects_one_byte_witness :
  x68 <> x69 /\
  checksum ([x00; x01] ++ x68 :: [x02]) <> checksum ([x00; x01] ++ x69 :: [x02]).
Proof.
  assert (x68 <> x69) as H by discriminate.
  split; [exact H |].
  exact (checksum_detects_one_byte [x00; x01] [x02] x68 x69 H).
Defined.

Lemma slice_insert_outside {A : Type} (a b : Z) (i : nat) (x : A) (l : list A) :
  0 <= a ->
  (i < Z.to_nat a)%nat \/ (Z.to_nat b <= i)%nat ->
  slice a b (<[i := x]> l) = slice a b l.
Proof.
  intros Ha Hi. unfold slice.
  destruct (Nat.lt_ge_cases i (Z.to_nat a)) as [Hlt | Hge].
  - rewrite drop_insert_lt by lia. reflexivity.
  - rewrite drop_insert_ge by lia. apply take_insert_ge. lia.
Qed.

(** The shape of what [pack_packet] returns. *)
Lemma pack_packet_shape (sq ak fl wn : Z) (pl raw : bytes) :
  pack_packet sq ak fl wn pl = Ret raw ->
  exists body,
    raw = body ++ to_be 2 (checksum body) /\
    len body = 13 + len pl /\
    payload_len_field raw = len pl /\
    len pl <= 65535.
Proof.
  intros Hpack.
  destruct (fields_in_range_dec sq ak fl wn (len pl)) as [[Hf Hn] | Hbad].
  2:{ rewrite pack_packet_out_of_range in Hpack by exact Hbad. discriminate Hpack. }
  pose proof (unpack_packet_of_parts sq ak fl wn pl Hf Hn) as Hun.
  rewrite pack_packet_ok in Hpack by assumption.
  assert (forall x y : bytes, Ret x = Ret y -> x = y) as Hinj by congruence.
  apply Hinj in Hpack. rename Hpack into Hraw. rewrite Hraw in Hun.
  exists (hdr_bytes sq ak fl wn (len pl) ++ pl).
  split; [symmetry; exact Hraw |].
  split; [rewrite len_app, len_hdr_bytes; reflexivity |].
  split; [|exact Hn].
  destruct (unpack_packet_Some raw _ Hun) as (Hdec & Hlen & Hfull & _).
  assert (len (payload (decoded raw)) = payload_len_field raw) as Hp.
  { unfold decoded. cbn [payload].
    pose proof (from_be_range (slice 11 13 raw)) as R.
    fold (payload_len_field raw) in R. rewrite len_slice by lia. lia. }
  rewrite <- Hdec in Hp. cbn [payload] in Hp. lia.
Qed.

(** X7: one altered byte is always caught, unless it is one of the two bytes
    of the length field: if [raw] is what [pack_packet] returned and the byte
    at an offset other than 11 and 12 is replaced by a different one,
    [unpack_packet] returns [None]. *)
Theorem corrupted_byte_rejected (sq ak fl wn : Z) (pl : bytes) (raw : list byte)
    (i : nat) (b b' : byte) :
  pack_packet sq ak fl wn pl = Ret raw ->
  raw !! i = Some b ->
  b' <> b ->
  i <> 11%nat -> i <> 12%nat ->
  unpack_packet (<[i := b']> raw) = Ret None.
Proof.
  intros Hpack Hi Hne H11 H12.
  destruct (pack_packet_shape sq ak fl wn pl raw Hpack)
    as (body & Hraw & Hbody & Hfield & Hn).
  pose proof (len_nonneg pl) as Hpl.
  set (cks := checksum body) in *.
  assert (len raw = 15 + len pl) as Hlen
    by (rewrite Hraw, len_app, len_to_be; simpl; lia).
  assert (len (<[i := b']> raw) = 15 + len pl) as Hlen'
    by (unfold len in *; rewrite length_insert; exact Hlen).
  assert (payload_len_field (<[i := b']> raw) = len pl) as Hfield'.
  { unfold payload_len_field in *. rewrite slice_insert_outside by lia. exact Hfield. }
  assert (from_be (to_be 2 cks) = cks) as Hcks.
  { apply from_be_to_be. pose proof (checksum_range body).
    change (2 ^ (8 * Z.of_nat 2)) with 65536. subst cks. lia. }
  rewrite unpack_packet_unfold by lia. cbv zeta. rewrite Hfield', Hlen'.
  replace (15 + len pl <? 13 + len pl + 2) with false
    by (symmetry; apply Z.ltb_ge; lia).
  assert (checksum (slice 0 (13 + len pl) (<[i := b']> raw))
          <> from_be (slice (13 + len pl) (13 + len pl + 2) (<[i := b']> raw))) as Hbad.
  { rewrite Hraw. rewrite Hraw in Hi.
    destruct (Nat.lt_ge_cases i (length body)) as [Hin | Hout].
    - rewrite insert_app_l by exact Hin.
      rewrite lookup_app_l in Hi by exact Hin.
      rewrite (slice_prefix (13 + len pl))
        by (unfold len in *; rewrite length_insert; exact Hbody).
      rewrite (slice_suffix (13 + len pl) (13 + len pl + 2))
        by (unfold len in *; rewrite ?length_insert, ?length_to_be; simpl; lia).
      rewrite Hcks. subst cks.
      rewrite insert_take_drop by exact Hin.
      rewrite <- (take_drop_middle body i b Hi) at 3.
      apply checksum_detects_byte_change. exact Hne.
    - rewrite insert_app_r_alt by exact Hout.
      rewrite lookup_app_r in Hi by exact Hout.
      rewrite (slice_prefix (13 + len pl)) by exact Hbody.
      rewrite (slice_suffix (13 + len pl) (13 + len pl + 2))
        by (unfold len in *; rewrite ?length_insert, ?length_to_be; simpl; lia).
      fold cks. intros Heq.
      assert (from_be (to_be 2 cks)
              = from_be (<[(i - length body)%nat := b']> (to_be 2 cks))) as Heq'
        by (rewrite Hcks; exact Heq).
      clear Heq. rename Heq' into Heq.
      apply from_be_inj in Heq; [|symmetry; apply length_insert].
      assert (i - length body < length (to_be 2 cks))%nat as Hj
        by (apply lookup_lt_Some in Hi; exact Hi).
      pose proof (list_lookup_insert_eq (to_be 2 cks) (i - length body) b' Hj) as Hnew.
      pose proof (f_equal (fun l : list byte => l !! (i - length body)%nat) Heq) as Hl.
      cbv beta in Hl.
      assert (Some b = Some b') as Hb
        by (etransitivity; [symmetry; exact Hi | etransitivity; [exact Hl | exact Hnew]]).
      injection Hb as Hb. apply Hne. symmetry. exact Hb. }
  apply Z.eqb_neq in Hbad. rewrite Hbad. reflexivity.
Qed.

Lemma corrupted_byte_rejected_witness :
  let raw := [x00; x00; x03; xe9; x00; x00; x00; x00; x08; x00; x01; x00; x05;
              x68; x65; x6c; x6c; x6f; x1b; xd3] in
  pack_packet 1001 0 FLAG_PSH 1 [x68; x65; x6c; x6c; x6f] = Ret raw /\
  raw !! 14%nat = Some x65 /\
  x66 <> x65 /\
  unpack_packet (<[14%nat := x66]> raw) = Ret None.
Proof.
  cbv zeta.
  assert (pack_packet 1001 0 FLAG_PSH 1 [x68; x65; x6c; x6c; x6f]
          = Ret [x00; x00; x03; xe9; x00; x00; x00; x00; x08; x00; x01; x00; x05;
                 x68; x65; x6c; x6c; x6f; x1b; xd3]) as Hpack by reflexivity.
  assert (x66 <> x65) as Hne by discriminate.
  split; [exact Hpack | split; [reflexivity | split; [exact Hne |]]].
  apply (corrupted_byte_rejected 1001 0 FLAG_PSH 1 [x68; x65; x6c; x6c; x6f] _ 14 x65 x66
           Hpack eq_refl Hne); discriminate.
Defined.

(** * Further properties of the server *)

Lemma pack_packet_cases (sq ak fl wn : Z) (pl : bytes) :
  (exists raw, pack_packet sq ak fl wn pl = Ret raw /\
               unpack_packet raw = Ret (Some (mkPacket sq ak fl wn pl))) \/
  pack_packet sq ak fl wn pl = Raise StructError.
Proof.
  destruct (fields_in_range_dec sq ak fl wn (len pl)) as [[Hf Hn] | Hbad].
  - left. eexists. split; [apply pack_packet_ok; assumption |].
    apply unpack_packet_of_parts; assumption.
  - right. apply pack_packet_out_of_range. exact Hbad.
Qed.

(** X8: handling a packet of one peer never changes the table entry of
    another peer. *)
Theorem other_peers_untouched (s : server) (pkt : Packet) (p q : peer) (isn : Z) :
  p <> q ->
  connections (snd (_handle_packet pkt q isn s)) !! p = connections s !! p.
Proof. apply handle_other_peer. Qed.

Lemma other_peers_untouched_witness :
  (("10.0.0.9"%string, 4000) : peer) <> p0 /\
  connections (snd (_handle_packet (mkPacket 1001 78 FLAG_FIN 1 []) p0 0
                      (after_handshake 1000))) !! (("10.0.0.9"%string, 4000) : peer)
  = connections (after_handshake 1000) !! (("10.0.0.9"%string, 4000) : peer).
Proof.
  assert ((("10.0.0.9"%string, 4000) : peer) <> p0) as Hne by discriminate.
  split; [exact Hne |].
  exact (other_peers_untouched (after_handshake 1000) (mkPacket 1001 78 FLAG_FIN 1 [])
           ("10.0.0.9"%string, 4000) p0 0 Hne).
Defined.

Ltac trace_cases q :=
  repeat match goal with
         | |- context [if ?b then _ else _] => destruct b
         | |- context [match pack_packet ?a ?b ?c ?d ?e with _ => _ end] =>
           let raw := fresh "raw" in
           let Hun := fresh "Hun" in
           let E := fresh "E" in
           destruct (pack_packet_cases a b c d e) as [(raw & E & Hun) | E]; rewrite E
         end;
  cbn [snd fst trace];
  first
    [ exists []; rewrite app_nil_r;
      split; [reflexivity | split; [simpl; lia | constructor]]
    | eexists; split; [reflexivity |];
      split; [simpl; lia |];
      repeat constructor; eauto ].

(** X9: whatever the packet and the table, the handler only appends to the
    trace, at most three events, and each of them is a datagram sent to the
    peer the packet came from that [unpack_packet] accepts, or the 200 ms
    sleep. *)
Theorem handler_replies_to_sender (s : server) (pkt : Packet) (q : peer) (isn : Z) :
  exists evs,
    trace (snd (_handle_packet pkt q isn s)) = trace s ++ evs /\
    (length evs <= 3)%nat /\
    Forall (reply_to q) evs.
Proof.
  destruct (has_flag pkt FLAG_SYN) eqn:Hsyn.
  - rewrite handle_syn by exact Hsyn. trace_cases q.
  - destruct (connections s !! q) as [st|] eqn:Hq.
    + destruct (established st) eqn:Hest.
      * rewrite (handle_established s pkt q isn st Hsyn Hq Hest). cbv zeta.
        trace_cases q.
      * rewrite (handle_handshake s pkt q isn st Hsyn Hq Hest). trace_cases q.
    + rewrite handle_unknown_peer by assumption. trace_cases q.
Qed.

(** X10: the handler raises nothing but [struct.error], whatever the packet
    and the table; in particular [del self.connections[peer]] never fails. *)
Theorem handler_raises_only_struct_error (s : server) (pkt : Packet) (q : peer) (isn : Z) :
  fst (_handle_packet pkt q isn s) = Ret tt \/
  fst (_handle_packet pkt q isn s) = Raise StructError.
Proof.
  destruct (has_flag pkt FLAG_SYN) eqn:Hsyn.
  - rewrite handle_syn by exact Hsyn.
    destruct (pack_packet_cases isn (seq pkt + 1) (Z.lor FLAG_SYN FLAG_ACK) 1 [])
      as [(raw & -> & _) | ->]; auto.
  - destruct (connections s !! q) as [st|] eqn:Hq.
    + destruct (established st) eqn:Hest.
      * rewrite (handle_established s pkt q isn st Hsyn Hq Hest). cbv zeta.
        repeat match goal with
               | |- context [if ?b then _ else _] => destruct b
               | |- context [match pack_packet ?a ?b ?c ?d ?e with _ => _ end] =>
                 let raw := fresh "raw" in
                 destruct (pack_packet_cases a b c d e) as [(raw & -> & _) | ->]
               end; auto.
      * rewrite (handle_handshake s pkt q isn st Hsyn Hq Hest).
        destruct (has_flag pkt FLAG_ACK && (ack pkt =? server_seq st + 1)); auto.
    + rewrite handle_unknown_peer by assumption. auto.
Qed.

Lemma pack_packet_reply_no_raise (sq ak fl : Z) (e : exn) :
  0 <= sq <= 0x7fffffff -> 0 <= ak <= 0xffffffff -> 0 <= fl <= 0xff ->
  pack_packet sq ak fl 1 [] <> Raise e.
Proof.
  intros Hs Ha Hf. rewrite pack_packet_ok; [discriminate | |].
  - unfold fields_in_range. lia.
  - unfold len. simpl. lia.
Qed.

(** X11: the handler ends without an exception whenever the sequence numbers
    stay within 32 bits: the packet's sequence number is below [2^32 - 1],
    the draw is one of [random.randint(0, 0x7fffffff)], and the entry of the
    peer, if there is one, has such a draw as [server_seq] and an
    [expected_seq] that the payload and one more leave at most [2^32 - 1]. *)
Theorem handler_succeeds_within_32_bits (s : server) (pkt : Packet) (q : peer) (isn : Z) :
  0 <= seq pkt < 0xffffffff ->
  0 <= isn <= 0x7fffffff ->
  (forall st, connections s !! q = Some st ->
     wf_state st /\ expected_seq st + len (payload pkt) + 1 <= 0xffffffff) ->
  fst (_handle_packet pkt q isn s) = Ret tt.
Proof.
  intros Hseq Hisn Hentry.
  pose proof (len_nonneg (payload pkt)) as Hlen.
  destruct (has_flag pkt FLAG_SYN) eqn:Hsyn.
  - rewrite handle_syn by exact Hsyn.
    destruct (pack_packet _ _ _ _ _) eqn:E; [reflexivity |].
    exfalso. revert E. apply pack_packet_reply_no_raise;
      change (Z.lor FLAG_SYN FLAG_ACK) with 3; lia.
  - destruct (connections s !! q) as [st|] eqn:Hq.
    + destruct (Hentry st eq_refl) as [[Hsrv Hexp] Hroom].
      destruct (established st) eqn:Hest.
      * rewrite (handle_established s pkt q isn st Hsyn Hq Hest). cbv zeta.
        repeat match goal with
               | |- context [if ?b then _ else _] => destruct b
               | |- context [match pack_packet ?a ?b ?c ?d ?e with _ => _ end] =>
                 let E := fresh "E" in
                 destruct (pack_packet a b c d e) eqn:E;
                 [| exfalso; revert E; apply pack_packet_reply_no_raise;
                    unfold FLAG_ACK, FLAG_FIN; lia ]
               end; reflexivity.
      * rewrite (handle_handshake s pkt q isn st Hsyn Hq Hest).
        destruct (has_flag pkt FLAG_ACK && (ack pkt =? server_seq st + 1)); reflexivity.
    + rewrite handle_unknown_peer by assumption. reflexivity.
Qed.

Lemma handler_succeeds_within_32_bits_witness :
  0 <= seq (mkPacket 1001 78 FLAG_PSH 1 [x68; x65; x6c; x6c; x6f]) < 0xffffffff /\
  0 <= 0 <= 0x7fffffff /\
  fst (_handle_packet (mkPacket 1001 78 FLAG_PSH 1 [x68; x65; x6c; x6c; x6f]) p0 0
         (after_handshake 1000)) = Ret tt.
Proof.
  assert (0 <= seq (mkPacket 1001 78 FLAG_PSH 1 [x68; x65; x6c; x6c; x6f]) < 0xffffffff)
    as H1 by (cbn [seq]; lia).
  assert (0 <= 0 <= 0x7fffffff) as H2 by lia.
  split; [exact H1 | split; [exact H2 |]].
  apply (handler_succeeds_within_32_bits (after_handshake 1000)
           (mkPacket 1001 78 FLAG_PSH 1 [x68; x65; x6c; x6c; x6f]) p0 0 H1 H2).
  intros st Hst. rewrite after_handshake_connection in Hst. injection Hst as <-.
  split; [apply wf_state_77; lia | vm_compute; discriminate].
Defined.

Lemma handle_preserves_seq_invariant (s : server) (pkt : Packet) (q : peer) (isn : Z) :
  map_Forall (fun _ st => seq_invariant st) (connections s) ->
  0 <= seq pkt ->
  map_Forall (fun _ st => seq_invariant st)
             (connections (snd (_handle_packet pkt q isn s))).
Proof.
  intros Hinv Hseq.
  destruct (has_flag pkt FLAG_SYN) eqn:Hsyn.
  - rewrite handle_syn by exact Hsyn.
    destruct (pack_packet _ _ _ _ _); cbn [snd connections];
      (apply map_Forall_insert_2; [|exact Hinv]);
      unfold seq_invariant; cbn [peer_seq expected_seq established]; lia.
  - destruct (connections s !! q) as [stq|] eqn:Hq.
    + pose proof (Hinv q stq Hq) as [Hs He].
      pose proof (len_nonneg (payload pkt)) as Hlen.
      destruct (established stq) eqn:Hest.
      * rewrite (handle_established s pkt q isn stq Hsyn Hq Hest). cbv zeta.
        repeat match goal with
               | |- context [if ?b then _ else _] => destruct b
               | |- context [match ?r with Ret _ => _ | Raise _ => _ end] => destruct r
               end; cbn [snd connections];
          try exact Hinv; try (apply map_Forall_delete; exact Hinv);
          (apply map_Forall_insert_2; [|exact Hinv]);
          unfold seq_invariant;
          cbn [peer_seq expected_seq established set_expected_seq];
          (split; [lia | congruence]).
      * rewrite (handle_handshake s pkt q isn stq Hsyn Hq Hest).
        destruct (has_flag pkt FLAG_ACK && (ack pkt =? server_seq stq + 1));
          cbn [snd connections]; [|exact Hinv].
        apply map_Forall_insert_2; [|exact Hinv].
        unfold seq_invariant; cbn [peer_seq expected_seq established set_established].
        split; [lia | discriminate].
    + rewrite handle_unknown_peer by assumption. exact Hinv.
Qed.

(** X12: every state that the server stores, starting from the empty table
    and handling packets whose sequence number is not negative, has a
    [server_seq] within [0 .. 2^31 - 1], an [expected_seq] above its
    [peer_seq], which is not negative, and, until it is established,
    [expected_seq = peer_seq + 1]. *)
Theorem reachable_state_invariant (s : server) (p : peer) (st : state) :
  reachable s ->
  connections s !! p = Some st ->
  0 <= server_seq st <= 0x7fffffff /\
  0 <= peer_seq st < expected_seq st /\
  (established st = false -> expected_seq st = peer_seq st + 1).
Proof.
  intros Hreach Hp.
  assert (map_Forall (fun _ st => seq_invariant st) (connections s)) as Hinv.
  { clear Hp. induction Hreach as [|s pkt q isn _ IH Hseq Hisn].
    - apply map_Forall_empty.
    - apply handle_preserves_seq_invariant; assumption. }
  destruct (reachable_wf s p st Hreach Hp) as [Hsrv _].
  destruct (Hinv p st Hp) as [Hseq Hhs]. auto.
Qed.

Lemma after_handshake_reachable : reachable (after_handshake 1000).
Proof.
  unfold after_handshake. apply reach_step; [|cbn [seq]; lia | lia].
  apply reach_step; [apply reach_init | cbn [seq]; lia | lia].
Qed.

Lemma reachable_state_invariant_witness :
  reachable (after_handshake 1000) /\
  connections (after_handshake 1000) !! p0 = Some (mkState 1000 77 1001 true) /\
  0 <= 77 <= 0x7fffffff /\
  0 <= 1000 < 1001.
Proof.
  split; [exact after_handshake_reachable | split; [exact after_handshake_connection |]].
  destruct (reachable_state_invariant (after_handshake 1000) p0
              (mkState 1000 77 1001 true) after_handshake_reachable
              after_handshake_connection) as (H1 & H2 & _).
  split; [exact H1 | exact H2].
Defined.

(** ** The receive loop *)

Lemma start_app (pre rest : list (bytes * peer * Z)) :
  forall s,
    start (pre ++ rest) s =
    match start pre s with
    | (Ret _, s') => start rest s'
    | (Raise e, s') => (Raise e, s')
    end.
Proof.
  induction pre as [|[[raw p] isn] pre IH]; intros s.
  - reflexivity.
  - cbn [app start]. destruct (unpack_packet raw) as [[pkt|]|e].
    + apply IH.
    + apply IH.
    + reflexivity.
Qed.

(** X13: a datagram on which [unpack_packet] returns [None] (too short, or a
    wrong checksum) is dropped without a trace: taking it out of what the
    loop receives changes neither the table nor what is sent. *)
Theorem start_drops_invalid_datagram (pre rest : list (bytes * peer * Z))
    (raw : bytes) (p : peer) (isn : Z) (s : server) :
  unpack_packet raw = Ret None ->
  start (pre ++ (raw, p, isn) :: rest) s = start (pre ++ rest) s.
Proof.
  intros Hnone. rewrite !start_app.
  destruct (start pre s) as [[u|e] s']; [|reflexivity].
  cbn [start]. rewrite Hnone. reflexivity.
Qed.

Lemma start_drops_invalid_datagram_witness :
  unpack_packet [x00; x01; x02] = Ret None /\
  start ([] ++ ([x00; x01; x02], p0, 0) :: []) (after_handshake 1000)
  = start ([] ++ []) (after_handshake 1000).
Proof.
  assert (unpack_packet [x00; x01; x02] = Ret None) as H by reflexivity.
  split; [exact H |].
  exact (start_drops_invalid_datagram [] [] [x00; x01; x02] p0 0 (after_handshake 1000) H).
Defined.

(** X14: the receive loop ends with an exception exactly when one of the
    datagrams makes [unpack_packet] raise; an exception inside a handler does
    not end it. *)
Theorem start_survives_iff (incoming : list (bytes * peer * Z)) (s : server) :
  fst (start incoming s) = Ret tt <->
  forallb (fun d => decodes (Datagram (fst (fst d)))) incoming = true.
Proof.
  revert s. induction incoming as [|[[raw p] isn] rest IH]; intros s.
  - cbn. split; reflexivity.
  - cbn [start forallb fst decodes].
    destruct (unpack_packet raw) as [[pkt|]|e]; cbn [andb].
    + apply IH.
    + apply IH.
    + cbn [fst]. split; discriminate.
Qed.

(** X15: one datagram of at least 15 bytes that is shorter than its header
    announces stops the server: the loop ends with [struct.error] when it
    reads it, and no datagram after it is handled. *)
Theorem start_stops_at_truncated_datagram (pre rest : list (bytes * peer * Z))
    (raw : bytes) (p : peer) (isn : Z) (s : server) :
  15 <= len raw ->
  len raw < 13 + payload_len_field raw + 2 ->
  fst (start pre s) = Ret tt ->
  start (pre ++ (raw, p, isn) :: rest) s = (Raise StructError, snd (start pre s)).
Proof.
  intros Hlen Hshort Hpre. rewrite start_app.
  destruct (start pre s) as [[u|e] s']; [|discriminate Hpre].
  cbn [start snd]. rewrite unpack_packet_truncated by assumption. reflexivity.
Qed.

Lemma start_stops_at_truncated_datagram_witness :
  15 <= len truncated_datagram /\
  len truncated_datagram < 13 + payload_len_field truncated_datagram + 2 /\
  start ([] ++ (truncated_datagram, p0, 0) :: [([x00; x01; x02], p0, 0)])
        (after_handshake 1000)
  = (Raise StructError, snd (start [] (after_handshake 1000))).
Proof.
  assert (15 <= len truncated_datagram) as H1 by (vm_compute; discriminate).
  assert (len truncated_datagram < 13 + payload_len_field truncated_datagram + 2) as H2
    by (vm_compute; reflexivity).
  split; [exact H1 | split; [exact H2 |]].
  exact (start_stops_at_truncated_datagram [] [([x00; x01; x02], p0, 0)]
           truncated_datagram p0 0 (after_handshake 1000) H1 H2 eq_refl).
Defined.

(** ** A whole session *)

Lemma pack_reply (sq ak fl : Z) :
  0 <= sq <= 0xffffffff -> 0 <= ak <= 0xffffffff -> 0 <= fl <= 0xff ->
  exists raw,
    pack_packet sq ak fl 1 [] = Ret raw /\ is_packet raw (mkPacket sq ak fl 1 []).
Proof.
  intros Hs Ha Hf. apply pack_packet_is_packet.
  - unfold fields_in_range. lia.
  - unfold len. simpl. lia.
Qed.




(** ** The client *)

Lemma send_and_wait_accepts_first (raw pkt : bytes) (r : Packet)
    (later : list recv) (sent : list bytes) (ef ea : option Z) :
  unpack_packet raw = Ret (Some r) ->
  flags_rejected ef r = false ->
  ack_rejected ea r = false ->
  send_and_wait (mkSocket (Datagram raw :: later) sent) pkt ef ea
  = Some (Ret (Some r), mkSocket later (sent ++ [pkt])).
Proof.
  intros Hun Hf Ha. unfold send_and_wait.
  change (Z.to_nat MAX_RETRIES) with 5%nat.
  cbn [send_and_wait_loop]. change (0 <? MAX_RETRIES) with true. cbv iota.
  unfold sock_sendto, sock_recvfrom. cbn [inbox outbox].
  rewrite Hun, Hf, Ha. reflexivity.
Qed.

Lemma main_total (c : Z) (sock : socket) : exists out, main c sock = Some out.
Proof.
  unfold main, cbind, clift, cret, csend_and_wait, csendto, crecvfrom.
  destruct (pack_packet c 0 FLAG_SYN 1 []) as [syn|e]; [|eauto].
  destruct (send_and_wait_total sock syn (Some (Z.lor FLAG_SYN FLAG_ACK)) None)
    as ([[[r|]|e] sock1] & ->); [| eauto | eauto].
  destruct (pack_packet (c + 1) (seq r + 1) FLAG_ACK 1 []) as [ackp|e]; [|eauto].
  destruct (pack_packet (c + 1) (seq r + 1) FLAG_PSH 1 hello_payload) as [dat|e]; [|eauto].
  destruct (send_and_wait_total (sock_sendto ackp sock1) dat (Some FLAG_ACK)
              (Some (len hello_payload + (c + 1))))
    as ([[ar|e] sock2] & ->); [| eauto].
  destruct (pack_packet (c + 1) (seq r + 1) FLAG_FIN 1 []) as [fin|e]; [|eauto].
  destruct (send_and_wait_total sock2 fin (Some FLAG_ACK) None)
    as ([[[r2|]|e] sock3] & ->); [| eauto | eauto].
  destruct (sock_recvfrom sock3) as [[raw|] sock4]; [|eauto].
  destruct (unpack_packet raw) as [[rp|]|e]; [| eauto | eauto].
  destruct (truthy (Z.land (flags rp) FLAG_FIN)); [|eauto].
  destruct (pack_packet (c + 2) (seq rp + 1) FLAG_ACK 1 []) as [fa|e]; eauto.
Qed.



Lemma send_and_wait_loop_accounting (pkt : bytes) (ef ea : option Z) (fuel : nat) :
  forall attempts sock out sock',
    send_and_wait_loop fuel attempts sock pkt ef ea = Some (out, sock') ->
    0 <= attempts <= MAX_RETRIES ->
    exists k : nat,
      Z.of_nat k <= MAX_RETRIES - attempts /\
      (attempts < MAX_RETRIES -> (1 <= k)%nat) /\
      outbox sock' = outbox sock ++ repeat pkt k /\
      inbox sock' = drop k (inbox sock) /\
      (out = Ret None -> Z.of_nat k = MAX_RETRIES - attempts) /\
      (forall r, out = Ret (Some r) ->
         flags_ok ef r = true /\ ack_ok ea r = true /\
         exists j raw, k = S j /\ inbox sock !! j = Some (Datagram raw) /\
                       unpack_packet raw = Ret (Some r)).
Proof.
  unfold MAX_RETRIES.
  induction fuel as [|fuel IH]; intros attempts sock out sock' Hrun Hatt;
    cbn [send_and_wait_loop] in Hrun; unfold MAX_RETRIES in Hrun;
    destruct (Z.ltb_spec attempts 5) as [Hlt | Hge]; try discriminate Hrun.
  - injection Hrun as <- <-. exists 0%nat. cbn [repeat drop].
    rewrite app_nil_r.
    split; [lia |]. split; [lia |]. split; [reflexivity |]. split; [reflexivity |].
    split; [lia | discriminate].
  - assert (forall sock1,
              outbox sock1 = outbox sock ++ [pkt] ->
              inbox sock1 = drop 1 (inbox sock) ->
              send_and_wait_loop fuel (attempts + 1) sock1 pkt ef ea = Some (out, sock') ->
              exists k : nat,
                Z.of_nat k <= 5 - attempts /\
                (attempts < 5 -> (1 <= k)%nat) /\
                outbox sock' = outbox sock ++ repeat pkt k /\
                inbox sock' = drop k (inbox sock) /\
                (out = Ret None -> Z.of_nat k = 5 - attempts) /\
                (forall r, out = Ret (Some r) ->
                   flags_ok ef r = true /\ ack_ok ea r = true /\
                   exists j raw, k = S j /\ inbox sock !! j = Some (Datagram raw) /\
                                 unpack_packet raw = Ret (Some r))) as Hnext.
    { intros sock1 Hout Hin Hrec.
      destruct (IH (attempts + 1) sock1 out sock' Hrec ltac:(lia))
        as (k & Hk & Hk1 & Hob & Hib & Hnone & Hsome).
      exists (S k). rewrite Hob, Hout, Hib, Hin, <- app_assoc, drop_drop.
      cbn [repeat app].
      split; [lia |]. split; [lia |]. split; [reflexivity |]. split; [reflexivity |].
      split.
      - intros Hn. specialize (Hnone Hn). lia.
      - intros r Hr. destruct (Hsome r Hr) as (Hf & Ha & j & raw & Hkj & Hj & Hun).
        split; [exact Hf | split; [exact Ha |]].
        exists (S j), raw. split; [congruence |]. split; [|exact Hun].
        rewrite Hin, lookup_drop in Hj. exact Hj. }
    unfold sock_recvfrom, sock_sendto in Hrun. cbn [inbox outbox] in Hrun.
    destruct (inbox sock) as [|got later] eqn:Hinbox.
    + refine (Hnext _ _ _ Hrun); reflexivity.
    + destruct got as [raw|];
        [| refine (Hnext _ _ _ Hrun); reflexivity].
      destruct (unpack_packet raw) as [[r|]|e] eqn:Hun.
      * rewrite flags_ok_rejected, ack_ok_rejected in Hrun.
        destruct (flags_ok ef r) eqn:Hf; cbn [negb] in Hrun;
          [| refine (Hnext _ _ _ Hrun); reflexivity].
        destruct (ack_ok ea r) eqn:Ha; cbn [negb] in Hrun;
          [| refine (Hnext _ _ _ Hrun); reflexivity].
        injection Hrun as <- <-. exists 1%nat. cbn [inbox outbox repeat drop].
        split; [lia |]. split; [lia |]. split; [reflexivity |]. split; [reflexivity |].
        split; [discriminate |].
        intros r' Hr'. injection Hr' as <-.
        split; [exact Hf | split; [exact Ha |]]. exists 0%nat, raw. auto.
      * refine (Hnext _ _ _ Hrun); reflexivity.
      * injection Hrun as <- <-. exists 1%nat. cbn [inbox outbox repeat drop].
        split; [lia |]. split; [lia |]. split; [reflexivity |]. split; [reflexivity |].
        split; discriminate.
  - injection Hrun as <- <-. exists 0%nat. cbn [repeat drop].
    rewrite app_nil_r.
    split; [lia |]. split; [lia |]. split; [reflexivity |]. split; [reflexivity |].
    split; [lia | discriminate].
Qed.

(** X18: however [send_and_wait] ends (with a packet, with [None] or with
    an exception), it has sent the same datagram [k] times and nothing else,
    with [1 <= k <= 5], and has taken exactly the first [k] receives; it
    returns [None] only after five attempts, and a packet it returns was
    decoded from the [k]-th receive and passes the flag and acknowledgment
    filters. *)
Theorem send_and_wait_accounting (sock sock' : socket) (pkt : bytes) (ef ea : option Z)
    (out : result (option Packet)) :
  send_and_wait sock pkt ef ea = Some (out, sock') ->
  exists k : nat,
    (1 <= k <= 5)%nat /\
    outbox sock' = outbox sock ++ repeat pkt k /\
    inbox sock' = drop k (inbox sock) /\
    (out = Ret None -> k = 5%nat) /\
    (forall r, out = Ret (Some r) ->
       flags_ok ef r = true /\ ack_ok ea r = true /\
       exists j raw, k = S j /\ inbox sock !! j = Some (Datagram raw) /\
                     unpack_packet raw = Ret (Some r)).
Proof.
  intros Hrun.
  destruct (send_and_wait_loop_accounting pkt ef ea _ 0 sock out sock' Hrun)
    as (k & Hk & Hk1 & Hob & Hib & Hnone & Hsome); [unfold MAX_RETRIES; lia |].
  unfold MAX_RETRIES in *. exists k.
  split; [split; [apply Hk1; lia | lia] |].
  split; [exact Hob | split; [exact Hib | split; [|exact Hsome]]].
  intros Hn. specialize (Hnone Hn). lia.
Qed.

Lemma send_and_wait_accounting_witness :
  send_and_wait (mkSocket [Timeout; Datagram overlong_datagram] []) [x01] None (Some 0)
  = Some (Ret (Some (mkPacket 0 0 0 0 [])), mkSocket [] [[x01]; [x01]]) /\
  exists k : nat,
    (1 <= k <= 5)%nat /\
    outbox (mkSocket [] [[x01]; [x01]])
    = outbox (mkSocket [Timeout; Datagram overlong_datagram] []) ++ repeat [x01] k.
Proof.
  assert (send_and_wait (mkSocket [Timeout; Datagram overlong_datagram] []) [x01]
            None (Some 0)
          = Some (Ret (Some (mkPacket 0 0 0 0 [])), mkSocket [] [[x01]; [x01]])) as H
    by reflexivity.
  split; [exact H |].
  destruct (send_and_wait_accounting _ _ _ _ _ _ H) as (k & Hk & Hob & _).
  exists k. split; [exact Hk | exact Hob].
Defined.

Lemma socket_eta (sock : socket) : mkSocket (inbox sock) (outbox sock) = sock.
Proof. destruct sock; reflexivity. Qed.

Lemma attempts_spec_all_rejected (pkt : bytes) (ef ea : option Z) (n : nat) :
  forall sock,
    (forall g, In g (firstn n (inbox sock)) -> accepted ef ea g = None) ->
    attempts_spec n sock pkt ef ea
    = (None, mkSocket (drop n (inbox sock)) (outbox sock ++ repeat pkt n)).
Proof.
  induction n as [|n IH]; intros sock Hrej.
  - cbn [attempts_spec repeat]. rewrite app_nil_r, drop_0, socket_eta. reflexivity.
  - cbn [attempts_spec]. unfold sock_recvfrom, sock_sendto. cbn [inbox outbox].
    destruct (inbox sock) as [|g later] eqn:Hin.
    + cbn [accepted]. rewrite IH by (cbn [inbox]; rewrite firstn_nil; intros g []).
      cbn [inbox outbox repeat]. rewrite drop_nil, <- app_assoc. reflexivity.
    + rewrite (Hrej g) by (left; reflexivity).
      rewrite IH by (cbn [inbox]; intros g' Hg'; apply Hrej; right; exact Hg').
      cbn [inbox outbox repeat skipn]. rewrite <- app_assoc. reflexivity.
Qed.

(** X19: when none of the first five receives is accepted as the reply to
    the SYN (each is a timeout or a datagram that decodes to [None] or to a
    packet with neither the SYN nor the ACK flag), [main] sends the same SYN
    five times and nothing else, and returns by the early [return]: no ACK, no
    data, no FIN, and [sock.close()] is not reached. *)
Theorem main_gives_up_after_five_syns (c : Z) (sock : socket) :
  0 <= c <= 0xffffffff ->
  (forall g, In g (firstn 5 (inbox sock)) ->
     decodes g = true /\ accepted (Some (Z.lor FLAG_SYN FLAG_ACK)) None g = None) ->
  exists syn,
    pack_packet c 0 FLAG_SYN 1 [] = Ret syn /\
    main c sock
    = Some (Ret HandshakeFailed,
            mkSocket (drop 5 (inbox sock)) (outbox sock ++ repeat syn 5)).
Proof.
  intros Hc Hrej.
  destruct (pack_reply c 0 FLAG_SYN) as (syn & Hsyn & _);
    [lia | lia | unfold FLAG_SYN; lia |].
  exists syn. split; [exact Hsyn |].
  unfold main, cbind, clift, csend_and_wait. rewrite Hsyn.
  rewrite send_and_wait_spec
    by (apply forallb_forall; intros g Hg; apply (Hrej g Hg)).
  rewrite attempts_spec_all_rejected by (intros g Hg; apply (Hrej g Hg)).
  reflexivity.
Qed.

Lemma main_gives_up_after_five_syns_witness :
  0 <= 1000 <= 0xffffffff /\
  exists syn,
    pack_packet 1000 0 FLAG_SYN 1 [] = Ret syn /\
    main 1000 (mkSocket [Timeout; Datagram [x00; x01; x02]] [])
    = Some (Ret HandshakeFailed,
            mkSocket (drop 5 [Timeout; Datagram [x00; x01; x02]]) ([] ++ repeat syn 5)).
Proof.
  assert (0 <= 1000 <= 0xffffffff) as H by lia.
  split; [exact H |].
  apply (main_gives_up_after_five_syns 1000
           (mkSocket [Timeout; Datagram [x00; x01; x02]] []) H).
  intros g Hg. cbn [inbox firstn] in Hg.
  destruct Hg as [<- | [<- | []]]; split; reflexivity.
Defined.

(** X20: the client does not wrap sequence numbers either: when the packet
    accepted as the reply to the SYN carries the sequence number
    [2^32 - 1], [main] raises [struct.error] while packing its ACK, having
    sent the SYN once and nothing else. *)
Theorem main_raises_on_max_server_sequence (c : Z) (raw : bytes) (r : Packet)
    (later : list recv) (sent : list bytes) :
  0 <= c <= 0x7fffffff ->
  unpack_packet raw = Ret (Some r) ->
  flags_ok (Some (Z.lor FLAG_SYN FLAG_ACK)) r = true ->
  seq r = 0xffffffff ->
  exists syn,
    pack_packet c 0 FLAG_SYN 1 [] = Ret syn /\
    main c (mkSocket (Datagram raw :: later) sent)
    = Some (Raise StructError, mkSocket later (sent ++ [syn])).
Proof.
  intros Hc Hun Hflags Hseq.
  destruct (pack_reply c 0 FLAG_SYN) as (syn & Hsyn & _);
    [lia | lia | unfold FLAG_SYN; lia |].
  exists syn. split; [exact Hsyn |].
  unfold main, cbind, clift, csend_and_wait. rewrite Hsyn.
  rewrite (send_and_wait_accepts_first raw syn r later sent _ _ Hun);
    [| rewrite flags_ok_rejected, Hflags; reflexivity | reflexivity].
  rewrite Hseq, pack_packet_bad_ack by lia. reflexivity.
Qed.

Lemma main_raises_on_max_server_sequence_witness :
  0 <= 1000 <= 0x7fffffff /\
  unpack_packet max_sequence_synack
  = Ret (Some (mkPacket 0xffffffff 1001 (Z.lor FLAG_SYN FLAG_ACK) 1 [])) /\
  exists syn,
    pack_packet 1000 0 FLAG_SYN 1 [] = Ret syn /\
    main 1000 (mkSocket (Datagram max_sequence_synack :: []) [])
    = Some (Raise StructError, mkSocket [] ([] ++ [syn])).
Proof.
  assert (0 <= 1000 <= 0x7fffffff) as H by lia.
  assert (unpack_packet max_sequence_synack
          = Ret (Some (mkPacket 0xffffffff 1001 (Z.lor FLAG_SYN FLAG_ACK) 1 []))) as Hun
    by reflexivity.
  split; [exact H | split; [exact Hun |]].
  exact (main_raises_on_max_server_sequence 1000 max_sequence_synack _ [] [] H Hun
           eq_refl eq_refl).
Defined.
